(** * ABCU Course Planner (ProjectTwo.cpp): a shallow embedding and its properties

    The program keeps [Course] records in an unbalanced binary search tree
    keyed by course number, fills the tree from a comma separated text file,
    prints the sorted course list and describes one course together with its
    prerequisites.

    Conventions of the embedding:
    - [std::string] is [string]; a [char] is an [ascii] (one byte).  The
      relational operators of [std::string] compare bytes as unsigned values,
      lexicographically, a proper prefix being smaller: this is
      [String.compare].
    - [TreeNode*] is the inductive type [TreeNode], [nullptr] being its
      constant constructor.
    - [cout] is a [string] that only grows; [endl] writes a newline.
    - The program state that the functions share (the one [CourseBST] of
      [main] and [cout]) is threaded by a small state monad [M].
    - The file system is a function from file names to [option string]:
      [None] for a file that cannot be opened, otherwise its content. *)

From Stdlib Require Import String Ascii List Bool Arith ZArith Lia.
From Stdlib Require Import Sorted Permutation DecimalString.
Import ListNotations.

Local Open Scope list_scope.
Local Open Scope string_scope.

(** ** std::string operations used by the program *)

Module Str.

(** [a < b] on [std::string]. *)
Definition lt (a b : string) : bool := String.ltb a b.

(** [a > b] on [std::string], which the library defines as [b < a]. *)
Definition gt (a b : string) : bool := String.ltb b a.

(** [a == b] on [std::string]. *)
Definition eq (a b : string) : bool := String.eqb a b.

(** [s.empty()]. *)
Definition empty (s : string) : bool :=
  match s with
  | EmptyString => true
  | String _ _ => false
  end.

(** Membership of a character in the character set of a search. *)
Fixpoint mem (c : ascii) (chars : string) : bool :=
  match chars with
  | EmptyString => false
  | String d chars' => Ascii.eqb c d || mem c chars'
  end.

(** [s.find_first_not_of(chars)]; [None] is [string::npos]. *)
Fixpoint find_first_not_of (s chars : string) : option nat :=
  match s with
  | EmptyString => None
  | String c s' =>
      if mem c chars then option_map S (find_first_not_of s' chars)
      else Some 0
  end.

(** [s.find_last_not_of(chars)]; [None] is [string::npos]. *)
Fixpoint find_last_not_of (s chars : string) : option nat :=
  match s with
  | EmptyString => None
  | String c s' =>
      match find_last_not_of s' chars with
      | Some i => Some (S i)
      | None => if mem c chars then None else Some 0
      end
  end.

(** [string::npos], the largest [size_t] (64 bits). *)
Definition npos : Z := 18446744073709551615.

(** The [size_t] a search returns. *)
Definition size_t (r : option nat) : Z :=
  match r with
  | Some i => Z.of_nat i
  | None => npos
  end.

(** Arithmetic on [size_t] wraps around. *)
Definition wrap (z : Z) : Z := (z mod 18446744073709551616)%Z.

(** [s.substr(pos, count)] for [pos <= s.size()]. *)
Definition substr (s : string) (pos count : nat) : string :=
  String.substring pos count s.

(** [toupper] of <cctype> in the "C" locale (the program never calls
    [setlocale]), on the value of an [unsigned char]. *)
Definition toupper (c : ascii) : ascii :=
  let n := nat_of_ascii c in
  if Nat.leb 97 n && Nat.leb n 122 then ascii_of_nat (n - 32) else c.

(** The largest [int] (32 bits). *)
Definition INT_MAX : Z := 2147483647.

(** The value an [int] holds after an arithmetic result [z].  Within the
    range of [int] this is [z].  Outside it the language leaves the result
    undefined; the compiled program wraps around in two's complement, and
    that is what is written out here. *)
Definition int_wrap (z : Z) : Z :=
  ((z + 2147483648) mod 4294967296 - 2147483648)%Z.

(** [operator<<] of an [int] on an [ostream]: decimal digits. *)
Definition of_int (n : Z) : string :=
  NilZero.string_of_int (Z.to_int n).

End Str.

(** ** Data structures *)

Record Course : Type := mkCourse {
  courseNumber : string;
  courseTitle : string;
  prerequisites : list string
}.

(** A [TreeNode*]: either [nullptr] or the address of a node that owns its
    two children. *)
Inductive TreeNode : Type :=
| nullptr : TreeNode
| node (courseData : Course) (leftChild rightChild : TreeNode) : TreeNode.

Record CourseBST : Type := mkCourseBST { root : TreeNode }.

(** ** The tree helpers of class CourseBST *)

(** [insertHelper(TreeNode*& node, newCourse)]: the result is the value of
    the reference [node] after the call. *)
Fixpoint insertHelper (nd : TreeNode) (newCourse : Course) : TreeNode :=
  match nd with
  | nullptr => node newCourse nullptr nullptr
  | node courseData leftChild rightChild =>
      if Str.lt (courseNumber newCourse) (courseNumber courseData) then
        node courseData (insertHelper leftChild newCourse) rightChild
      else if Str.gt (courseNumber newCourse) (courseNumber courseData) then
        node courseData leftChild (insertHelper rightChild newCourse)
      else
        node (mkCourse (courseNumber courseData)
                       (courseTitle newCourse)
                       (prerequisites newCourse))
             leftChild rightChild
  end.

(** [searchHelper(node, targetNumber)]: [None] is the null result, [Some c]
    the course the returned pointer designates. *)
Fixpoint searchHelper (nd : TreeNode) (targetNumber : string) : option Course :=
  match nd with
  | nullptr => None
  | node courseData leftChild rightChild =>
      if Str.eq targetNumber (courseNumber courseData) then Some courseData
      else if Str.lt targetNumber (courseNumber courseData) then
        searchHelper leftChild targetNumber
      else searchHelper rightChild targetNumber
  end.

(** [clearHelper(node)] deletes every node below [node]; it returns nothing
    and the caller resets its pointer. *)
Fixpoint clearHelper (nd : TreeNode) : unit :=
  match nd with
  | nullptr => tt
  | node _ leftChild rightChild =>
      let _ := clearHelper leftChild in
      let _ := clearHelper rightChild in
      tt
  end.

(** ** Program state and its monad *)

Record World : Type := mkWorld {
  courseTree : CourseBST;
  cout : string
}.

Definition M (A : Type) : Type := World -> A * World.

Definition ret {A : Type} (a : A) : M A := fun w => (a, w).

Definition bind {A B : Type} (m : M A) (k : A -> M B) : M B :=
  fun w => let (a, w') := m w in k a w'.

Declare Scope prog_scope.
Delimit Scope prog_scope with prog.
Notation "x <- m ;; k" := (bind m (fun x => k))
  (at level 61, m at next level, right associativity) : prog_scope.
Notation "m ;; k" := (bind m (fun _ => k))
  (at level 61, right associativity) : prog_scope.
Local Open Scope prog_scope.

(** [cout << s]. *)
Definition print (s : string) : M unit :=
  fun w => (tt, mkWorld (courseTree w) (cout w ++ s)).

(** [cout << endl]. *)
Definition endl : M unit := print (String "010"%char EmptyString).

(** A range-based [for] over a vector. *)
Fixpoint forEach {A : Type} (xs : list A) (body : A -> M unit) : M unit :=
  match xs with
  | [] => ret tt
  | x :: xs' => body x ;; forEach xs' body
  end.

(** ** The public members of class CourseBST, on the tree of [main] *)

Definition insert (newCourse : Course) : M unit :=
  fun w => (tt, mkWorld (mkCourseBST (insertHelper (root (courseTree w)) newCourse))
                        (cout w)).

Definition search (targetNumber : string) : M (option Course) :=
  fun w => (searchHelper (root (courseTree w)) targetNumber, w).

Fixpoint inOrderHelper (nd : TreeNode) : M unit :=
  match nd with
  | nullptr => ret tt
  | node courseData leftChild rightChild =>
      inOrderHelper leftChild ;;
      print (courseNumber courseData) ;; print ", " ;;
      print (courseTitle courseData) ;; endl ;;
      inOrderHelper rightChild
  end.

Definition printInOrder : M unit :=
  fun w =>
    match root (courseTree w) with
    | nullptr => (print "No courses loaded." ;; endl) w
    | node _ _ _ => inOrderHelper (root (courseTree w)) w
    end.

Definition clear : M unit :=
  fun w =>
    let _ := clearHelper (root (courseTree w)) in
    (tt, mkWorld (mkCourseBST nullptr) (cout w)).

(** ** Utility functions *)

Definition whitespace : string :=
  String " "%char (String "009"%char (String "013"%char (String "010"%char EmptyString))).

Definition trim (s : string) : string :=
  match Str.find_first_not_of s whitespace with
  | None => ""
  | Some start =>
      let end_ := Str.size_t (Str.find_last_not_of s whitespace) in
      Str.substr s start (Z.to_nat (Str.wrap (end_ - Z.of_nat start + 1)))
  end.

(** The characters [getline] extracts from a stream that still holds
    characters: everything before the first delimiter, which is extracted
    and dropped, or everything when no delimiter is left.  The second
    component is what remains in the stream. *)
Fixpoint getline_chars (strm : string) (delimiter : ascii) : string * string :=
  match strm with
  | EmptyString => ("", "")
  | String c strm' =>
      if Ascii.eqb c delimiter then ("", strm')
      else let (token, rest) := getline_chars strm' delimiter in
           (String c token, rest)
  end.

(** [getline(strm, token, delimiter)] used as a loop condition, on the
    characters a stream still holds.  With nothing left no character is
    extracted and the stream fails ([None]); otherwise the call succeeds,
    also when it stops at the end of the stream. *)
Definition getline (strm : string) (delimiter : ascii) : option (string * string) :=
  match strm with
  | EmptyString => None
  | String _ _ => Some (getline_chars strm delimiter)
  end.

(** The [while (getline(ss, token, delimiter))] loop of [split]; [fuel]
    bounds the number of iterations. *)
Fixpoint split_loop (fuel : nat) (ss : string) (delimiter : ascii)
                    (tokens : list string) : list string :=
  match fuel with
  | O => tokens
  | S fuel' =>
      match getline ss delimiter with
      | None => tokens
      | Some (token, ss') => split_loop fuel' ss' delimiter (tokens ++ [token])
      end
  end.

Definition split (line : string) (delimiter : ascii) : list string :=
  split_loop (S (String.length line)) line delimiter [].

Fixpoint toUpper (s : string) : string :=
  match s with
  | EmptyString => EmptyString
  | String c s' => String (Str.toupper c) (toUpper s')
  end.

(** ** File loading *)

(** [for (size_t i = 2; i < tokens.size(); ++i)] of the loader: [steps]
    bounds the iterations, [i] is the loop index and [prereqs] the vector
    [course.prerequisites] built so far. *)
Fixpoint prereqLoop (steps i : nat) (tokens prereqs : list string) : list string :=
  match steps with
  | O => prereqs
  | S steps' =>
      if Nat.ltb i (List.length tokens) then
        let prereqId := trim (nth i tokens "") in
        prereqLoop steps' (S i) tokens
          (if negb (Str.empty prereqId) then prereqs ++ [prereqId] else prereqs)
      else prereqs
  end.

(** The [Course] the loader builds from the tokens of a line. *)
Definition courseOfTokens (tokens : list string) : Course :=
  mkCourse (trim (nth 0 tokens ""))
           (trim (nth 1 tokens ""))
           (prereqLoop (List.length tokens) 2 tokens []).

(** The body of the [while] loop of [loadCoursesFromFile], after the line
    counter has been incremented. *)
Definition loadLine (lineNumber : Z) (line : string) : M unit :=
  if Str.empty (trim line) then ret tt
  else
    let tokens := split line ","%char in
    if Nat.ltb (List.length tokens) 2 then
      print "File format error on line " ;; print (Str.of_int lineNumber) ;;
      print ": fewer than two fields." ;; endl ;;
      print "Offending line: " ;; print line ;; endl
    else
      let course := courseOfTokens tokens in
      if negb (Str.empty (courseNumber course)) && negb (Str.empty (courseTitle course))
      then insert course
      else
        print "File format warning on line " ;; print (Str.of_int lineNumber) ;;
        print ": missing course number or title." ;; endl.

(** [while (getline(inputFile, line))]: [inputFile] is what the stream still
    holds, [lineNumber] is the [int] that counts the lines read so far;
    [lineNumber++] is [Str.int_wrap (lineNumber + 1)], which is
    [lineNumber + 1] as long as the file has fewer than 2^31 lines. *)
Fixpoint readLines (fuel : nat) (inputFile : string) (lineNumber : Z) : M unit :=
  match fuel with
  | O => ret tt
  | S fuel' =>
      match getline inputFile "010"%char with
      | None => ret tt
      | Some (line, inputFile') =>
          let lineNumber' := Str.int_wrap (lineNumber + 1) in
          loadLine lineNumber' line ;;
          readLines fuel' inputFile' lineNumber'
      end
  end.

Definition loadCoursesFromFile (fs : string -> option string) (fileName : string)
  : M bool :=
  match fs fileName with
  | None =>
      print "Error opening file: " ;; print fileName ;; endl ;;
      ret false
  | Some content =>
      clear ;;
      readLines (S (String.length content)) content 0%Z ;;
      print "Courses successfully loaded from file: " ;; print fileName ;; endl ;;
      ret true
  end.

(** ** Printing functions *)

(** The body of the loop over [found->prerequisites]. *)
Definition printPrerequisite (prereqIdRaw : string) : M unit :=
  let prereqId := toUpper prereqIdRaw in
  prereqCourse <- search prereqId ;;
  match prereqCourse with
  | Some pc =>
      print "  " ;; print (courseNumber pc) ;; print ", " ;;
      print (courseTitle pc) ;; endl
  | None =>
      print "  " ;; print prereqId ;; print " (course not found in data)" ;; endl
  end.

Definition printCourseInformation (targetNumber : string) : M unit :=
  let searchNumber := toUpper targetNumber in
  found <- search searchNumber ;;
  match found with
  | None =>
      print "Course " ;; print searchNumber ;; print " not found." ;; endl
  | Some c =>
      endl ;;
      print (courseNumber c) ;; print ", " ;; print (courseTitle c) ;; endl ;;
      match prerequisites c with
      | [] => print "Prerequisites: None" ;; endl
      | _ :: _ =>
          print "Prerequisites:" ;; endl ;;
          forEach (prerequisites c) printPrerequisite
      end
  end.

(** ** Menu and main program *)

Definition printMenu : M unit :=
  endl ;;
  print "*******************************" ;; endl ;;
  print "Welcome to the ABCU Course Planner" ;; endl ;;
  print "*******************************" ;; endl ;;
  print "1. Load Data Structure" ;; endl ;;
  print "2. Print Course List" ;; endl ;;
  print "3. Print Course" ;; endl ;;
  print "9. Exit" ;; endl ;;
  print "Please enter your choice: ".

(** One iteration of the loop of [main].  [userChoice] is the line read
    from [cin] after the menu, [input] the line that options 1 and 3 read
    next (the file name, the course number); [dataLoaded] is the flag of
    [main].  The result is the new flag and whether the loop goes on. *)
Definition mainIteration (fs : string -> option string)
    (userChoice input : string) (dataLoaded : bool) : M (bool * bool) :=
  printMenu ;;
  if Str.eq userChoice "1" then
    print "Enter course data file name: " ;;
    if Str.empty input then
      print "File name cannot be empty." ;; endl ;; ret (dataLoaded, true)
    else
      loaded <- loadCoursesFromFile fs input ;;
      ret (loaded, true)
  else if Str.eq userChoice "2" then
    if negb dataLoaded then
      print "Please load the data structure first (option 1)." ;; endl ;;
      ret (dataLoaded, true)
    else
      endl ;; print "Here is the list of courses:" ;; endl ;;
      printInOrder ;; ret (dataLoaded, true)
  else if Str.eq userChoice "3" then
    if negb dataLoaded then
      print "Please load the data structure first (option 1)." ;; endl ;;
      ret (dataLoaded, true)
    else
      print "Please enter the course number (for example, CS200): " ;;
      (if Str.empty input then print "Course number cannot be empty." ;; endl
       else printCourseInformation input) ;;
      ret (dataLoaded, true)
  else if Str.eq userChoice "9" then
    print "Thank you for using the ABCU Course Planner. Goodbye!" ;; endl ;;
    ret (dataLoaded, false)
  else
    print "Invalid choice. Please enter 1, 2, 3, or 9." ;; endl ;;
    ret (dataLoaded, true).

(** ** The search tree: visit sequence and invariant *)

(** The courses in the order in which [inOrderHelper] visits them. *)
Fixpoint inOrder (nd : TreeNode) : list Course :=
  match nd with
  | nullptr => []
  | node courseData leftChild rightChild =>
      (inOrder leftChild ++ courseData :: inOrder rightChild)%list
  end.

Definition keys (nd : TreeNode) : list string := map courseNumber (inOrder nd).

(** The number of nodes of a tree. *)
Fixpoint size (nd : TreeNode) : nat :=
  match nd with
  | nullptr => 0
  | node _ leftChild rightChild => S (size leftChild + size rightChild)
  end.

(** Every course number of the tree satisfies [P]. *)
Fixpoint allKeys (P : string -> Prop) (nd : TreeNode) : Prop :=
  match nd with
  | nullptr => True
  | node courseData leftChild rightChild =>
      P (courseNumber courseData) /\ allKeys P leftChild /\ allKeys P rightChild
  end.

(** The binary-search-tree property. *)
Fixpoint bst (nd : TreeNode) : Prop :=
  match nd with
  | nullptr => True
  | node courseData leftChild rightChild =>
      allKeys (fun k => Str.lt k (courseNumber courseData) = true) leftChild /\
      allKeys (fun k => Str.lt (courseNumber courseData) k = true) rightChild /\
      bst leftChild /\ bst rightChild
  end.

(** The trees the program can hold: [clear] and the constructor give the
    empty tree, and [insert] is the only other operation that changes it. *)
Inductive reachable : TreeNode -> Prop :=
| reachable_empty : reachable nullptr
| reachable_insert nd c : reachable nd -> reachable (insertHelper nd c).

Definition strictly_ascending (ks : list string) : Prop :=
  StronglySorted (fun a b => Str.lt a b = true) ks.

(** What [insert] on a key already present does to an entry [x]: the entry
    with the number of [c] becomes [c], any other entry stays. *)
Definition replaceCourse (c x : Course) : Course :=
  if Str.eq (courseNumber x) (courseNumber c) then c else x.

(** The same tree, node for node, with [f] applied to the course of every
    node. *)
Fixpoint mapCourses (f : Course -> Course) (nd : TreeNode) : TreeNode :=
  match nd with
  | nullptr => nullptr
  | node courseData leftChild rightChild =>
      node (f courseData) (mapCourses f leftChild) (mapCourses f rightChild)
  end.

(** ** The text the program writes *)

Definition nl : string := String "010"%char EmptyString.

(** The line [inOrderHelper] prints for one course. *)
Definition courseLine (c : Course) : string :=
  courseNumber c ++ ", " ++ courseTitle c ++ nl.

Fixpoint listing (cs : list Course) : string :=
  match cs with
  | [] => ""
  | c :: cs' => courseLine c ++ listing cs'
  end.

Definition formatError (lineNumber : Z) (line : string) : string :=
  "File format error on line " ++ Str.of_int lineNumber ++
  ": fewer than two fields." ++ nl ++ "Offending line: " ++ line ++ nl.

Definition missingFieldWarning (lineNumber : Z) : string :=
  "File format warning on line " ++ Str.of_int lineNumber ++
  ": missing course number or title." ++ nl.

Definition menuText : string :=
  nl ++ "*******************************" ++ nl ++
  "Welcome to the ABCU Course Planner" ++ nl ++
  "*******************************" ++ nl ++
  "1. Load Data Structure" ++ nl ++
  "2. Print Course List" ++ nl ++
  "3. Print Course" ++ nl ++
  "9. Exit" ++ nl ++
  "Please enter your choice: ".

(** ** The loader, line by line *)

(** The four ways in which [loadLine] treats a line. *)
Inductive LineOutcome : Type :=
| Blank : LineOutcome
| TooFewFields : LineOutcome
| MissingField : LineOutcome
| Accepted (c : Course) : LineOutcome.

(** The tests of [loadLine], in the order in which it makes them. *)
Definition classify (line : string) : LineOutcome :=
  if Str.empty (trim line) then Blank
  else
    let tokens := split line ","%char in
    if Nat.ltb (List.length tokens) 2 then TooFewFields
    else
      let course := courseOfTokens tokens in
      if negb (Str.empty (courseNumber course)) && negb (Str.empty (courseTitle course))
      then Accepted course
      else MissingField.

(** The courses that the lines of a file insert, first line first. *)
Fixpoint lineCourses (lines : list string) : list Course :=
  match lines with
  | [] => []
  | line :: lines' =>
      match classify line with
      | Accepted c => c :: lineCourses lines'
      | _ => lineCourses lines'
      end
  end.

(** The diagnostics that the lines of a file produce; [lineNumber] is the
    number of lines read before them. *)
Fixpoint reports (lines : list string) (lineNumber : Z) : string :=
  match lines with
  | [] => ""
  | line :: lines' =>
      match classify line with
      | TooFewFields => formatError (Str.int_wrap (lineNumber + 1)) line
      | MissingField => missingFieldWarning (Str.int_wrap (lineNumber + 1))
      | _ => ""
      end ++ reports lines' (Str.int_wrap (lineNumber + 1))
  end.

(** The loop of the loader over the lines already cut out of the file. *)
Fixpoint loadLines (lines : list string) (lineNumber : Z) : M unit :=
  match lines with
  | [] => ret tt
  | line :: lines' =>
      loadLine (Str.int_wrap (lineNumber + 1)) line ;;
      loadLines lines' (Str.int_wrap (lineNumber + 1))
  end.

(** The lines of a file, as the loop of the loader reads them. *)
Definition fileLines (content : string) : list string :=
  split content "010"%char.

(** ** Whitespace *)

(** The string without its leading whitespace. *)
Fixpoint lstrip (s : string) : string :=
  match s with
  | EmptyString => EmptyString
  | String c s' => if Str.mem c whitespace then lstrip s' else s
  end.

(** The string without its trailing whitespace. *)
Fixpoint rstrip (s : string) : string :=
  match s with
  | EmptyString => EmptyString
  | String c s' =>
      match rstrip s' with
      | EmptyString => if Str.mem c whitespace then EmptyString else String c EmptyString
      | String d r => String c (String d r)
      end
  end.

(** The last character of a string, if any. *)
Fixpoint lastChar (s : string) : option ascii :=
  match s with
  | EmptyString => None
  | String c EmptyString => Some c
  | String _ s' => lastChar s'
  end.

(** ** Fields of a line *)

(** A field is kept as a prerequisite when it is not empty. *)
Definition nonEmpty (s : string) : bool := negb (Str.empty s).

(** The fields of a line in the sense of the file format: the pieces
    between the delimiters, an empty piece after a final delimiter
    included.  This is the reading of "field" in the specification;
    [split] is what the program computes. *)
Fixpoint spec_fields (line : string) (delimiter : ascii) : list string :=
  match line with
  | EmptyString => [""]
  | String c line' =>
      if Ascii.eqb c delimiter then "" :: spec_fields line' delimiter
      else
        match spec_fields line' delimiter with
        | field :: fields => String c field :: fields
        | [] => [String c ""]
        end
  end.

(** A list of fields without its last field when that one is empty. *)
Fixpoint dropLastEmpty (fields : list string) : list string :=
  match fields with
  | [] => []
  | field :: fields' =>
      match fields' with
      | [] => if Str.empty field then [] else [field]
      | _ :: _ => field :: dropLastEmpty fields'
      end
  end.

(** ** The description of a course *)

(** The line printed for one prerequisite of the course being described,
    against the tree [nd]. *)
Definition prerequisiteLine (nd : TreeNode) (prereqIdRaw : string) : string :=
  match searchHelper nd (toUpper prereqIdRaw) with
  | Some pc => "  " ++ courseNumber pc ++ ", " ++ courseTitle pc ++ nl
  | None => "  " ++ toUpper prereqIdRaw ++ " (course not found in data)" ++ nl
  end.

Fixpoint prerequisiteLines (nd : TreeNode) (prereqs : list string) : string :=
  match prereqs with
  | [] => ""
  | p :: prereqs' => prerequisiteLine nd p ++ prerequisiteLines nd prereqs'
  end.

(** What [printCourseInformation] writes for a course it has found. *)
Definition description (nd : TreeNode) (c : Course) : string :=
  nl ++ courseNumber c ++ ", " ++ courseTitle c ++ nl ++
  match prerequisites c with
  | [] => "Prerequisites: None" ++ nl
  | _ :: _ => "Prerequisites:" ++ nl ++ prerequisiteLines nd (prerequisites c)
  end.

Definition notFoundMessage (targetNumber : string) : string :=
  "Course " ++ toUpper targetNumber ++ " not found." ++ nl.

(** ** Concrete worlds and file systems *)

(** The state in which [main] starts: an empty tree, nothing written. *)
Definition initialWorld : World := mkWorld (mkCourseBST nullptr) "".

(** A file system with a single file. *)
Definition oneFile (name content : string) : string -> option string :=
  fun fileName => if Str.eq fileName name then Some content else None.

(** The world after loading, from the initial state, a file whose content
    is [content]. *)
Definition loadedFrom (content : string) : World :=
  snd (loadCoursesFromFile (oneFile "courses.csv" content) "courses.csv" initialWorld).

(** ** Further notions on the tree *)

(** The last course of a list with the number [k], if any. *)
Definition lastCourse (k : string) (cs : list Course) : option Course :=
  find (fun c => Str.eq k (courseNumber c)) (rev cs).

(** The number of nodes on the longest path from a node down to a leaf,
    which is the depth the recursive helpers reach. *)
Fixpoint height (nd : TreeNode) : nat :=
  match nd with
  | nullptr => 0
  | node _ leftChild rightChild => S (Nat.max (height leftChild) (height rightChild))
  end.

(** A tree without left children: a list in disguise. *)
Fixpoint rightSpine (nd : TreeNode) : Prop :=
  match nd with
  | nullptr => True
  | node _ leftChild rightChild => leftChild = nullptr /\ rightSpine rightChild
  end.

(** ** Further notions on strings *)

(** Every character of [s] is one of [chars]. *)
Fixpoint allIn (chars s : string) : bool :=
  match s with
  | EmptyString => true
  | String c s' => Str.mem c chars && allIn chars s'
  end.

(** The tokens written one after the other with the delimiter between
    them. *)
Fixpoint join (delimiter : ascii) (tokens : list string) : string :=
  match tokens with
  | [] => ""
  | token :: tokens' =>
      match tokens' with
      | [] => token
      | _ :: _ => token ++ String delimiter (join delimiter tokens')
      end
  end.

(** The number of occurrences of a character in a string. *)
Fixpoint countChar (c : ascii) (s : string) : nat :=
  match s with
  | EmptyString => 0
  | String d s' => (if Ascii.eqb d c then 1 else 0) + countChar c s'
  end.

(** The string ends with the character [c]. *)
Definition endsWith (c : ascii) (s : string) : bool :=
  match lastChar s with
  | Some d => Ascii.eqb d c
  | None => false
  end.

(** A lower-case letter of ASCII. *)
Definition isLower (c : ascii) : bool :=
  Nat.leb 97 (nat_of_ascii c) && Nat.leb (nat_of_ascii c) 122.

(** The string has a lower-case letter of ASCII. *)
Fixpoint hasLower (s : string) : bool :=
  match s with
  | EmptyString => false
  | String c s' => isLower c || hasLower s'
  end.

(** ** Line endings *)

(** The fields with [s] appended to the last of them. *)
Fixpoint appendLast (s : string) (fields : list string) : list string :=
  match fields with
  | [] => []
  | field :: fields' =>
      match fields' with
      | [] => [field ++ s]
      | _ :: _ => field :: appendLast s fields'
      end
  end.

(** The fields with [s] appended to each of them but the last. *)
Fixpoint appendButLast (s : string) (fields : list string) : list string :=
  match fields with
  | [] => []
  | field :: fields' =>
      match fields' with
      | [] => [field]
      | _ :: _ => (field ++ s) :: appendButLast s fields'
      end
  end.

(** The course the loader accepts for a line whose trimmed tokens are
    [trimmed], if it accepts one. *)
Definition acceptTrimmed (trimmed : list string) : option Course :=
  if Nat.ltb (List.length trimmed) 2 then None
  else if nonEmpty (nth 0 trimmed "") && nonEmpty (nth 1 trimmed "")
       then Some (mkCourse (nth 0 trimmed "") (nth 1 trimmed "")
                           (filter nonEmpty (skipn 2 trimmed)))
       else None.

(** The course of an outcome, if the line was accepted. *)
Definition acceptedCourse (outcome : LineOutcome) : option Course :=
  match outcome with
  | Accepted c => Some c
  | _ => None
  end.

(** The carriage return that precedes the newline in a Windows file. *)
Definition carriageReturn : string := String "013"%char EmptyString.

(** The text with a carriage return put before every newline. *)
Fixpoint toCRLF (content : string) : string :=
  match content with
  | EmptyString => EmptyString
  | String c content' =>
      if Ascii.eqb c "010"%char
      then String "013"%char (String "010"%char (toCRLF content'))
      else String c (toCRLF content')
  end.

(** ** The loop of [main] on standard input *)

(** An input stream: the characters it still holds and its two state
    bits.  A stream is good when neither bit is set. *)
Record istream : Type := mkIstream {
  pending : string;
  eofbit : bool;
  failbit : bool
}.

Definition good (strm : istream) : bool := negb (eofbit strm) && negb (failbit strm).

(** [getline(strm, str)] with the state of the stream: the result is the
    stream after the call and the value of [str] after the call.  On a
    stream that is not good the call sets [failbit] and leaves [str] as it
    is.  On a good stream [str] is first erased; then characters are
    extracted up to the newline, which is dropped, or up to the end of the
    stream, which sets [eofbit]; extracting nothing at all sets
    [failbit]. *)
Definition getlineState (strm : istream) (str : string) : istream * string :=
  if good strm then
    match pending strm with
    | EmptyString => (mkIstream "" true true, "")
    | String _ _ =>
        let (line, rest) := getline_chars (pending strm) "010"%char in
        if Str.mem "010"%char (pending strm)
        then (mkIstream rest false false, line)
        else (mkIstream "" true false, line)
    end
  else (mkIstream (pending strm) (eofbit strm) true, str).

(** The variables of [main] that outlive an iteration of its loop, with
    [cin]. *)
Record MainState : Type := mkMainState {
  cin : istream;
  dataLoaded : bool;
  fileName : string;
  userChoice : string
}.

(** One iteration of the loop of [main], reading from [cin]: the menu
    choice first, then the file name for option 1, or the course number
    for option 3 once data are loaded ([searchNumber] is a fresh, empty
    string in every iteration).  The result is the state after the
    iteration and whether the loop goes on. *)
Definition mainStep (fs : string -> option string) (st : MainState)
  : M (MainState * bool) :=
  let (cin1, choice) := getlineState (cin st) (userChoice st) in
  if Str.eq choice "1" then
    let (cin2, name) := getlineState cin1 (fileName st) in
    r <- mainIteration fs choice name (dataLoaded st) ;;
    ret (mkMainState cin2 (fst r) name choice, snd r)
  else if Str.eq choice "3" && dataLoaded st then
    let (cin2, searchNumber) := getlineState cin1 "" in
    r <- mainIteration fs choice searchNumber (dataLoaded st) ;;
    ret (mkMainState cin2 (fst r) (fileName st) choice, snd r)
  else
    r <- mainIteration fs choice "" (dataLoaded st) ;;
    ret (mkMainState cin1 (fst r) (fileName st) choice, snd r).

(** [while (true)] of [main]; [fuel] bounds the number of iterations.  The
    result is [Some 0] when [main] has returned 0 and [None] when the loop
    is still running after [fuel] iterations. *)
Fixpoint mainLoop (fuel : nat) (fs : string -> option string) (st : MainState)
  : M (option Z) :=
  match fuel with
  | O => ret None
  | S fuel' =>
      r <- mainStep fs st ;;
      if snd r then mainLoop fuel' fs (fst r) else ret (Some 0%Z)
  end.

(** [main] on the standard input [input]. *)
Definition main (fuel : nat) (fs : string -> option string) (input : string)
  : M (option Z) :=
  mainLoop fuel fs (mkMainState (mkIstream input false false) false "" "").

(** The texts of [main]. *)
Definition loadFirstNotice : string :=
  "Please load the data structure first (option 1)." ++ nl.

Definition goodbye : string :=
  "Thank you for using the ABCU Course Planner. Goodbye!" ++ nl.

Definition invalidChoice : string :=
  "Invalid choice. Please enter 1, 2, 3, or 9." ++ nl.

(** A stream that is not good and a choice other than 9: the loop is stuck
    in this situation. *)
Definition stuck (st : MainState) : Prop :=
  good (cin st) = false /\ userChoice st <> "9".

(** * Properties *)

(** ** The order of std::string *)

Section StringOrder.

Lemma int_wrap_small (z : Z) :
  (- 2147483648 <= z <= Str.INT_MAX)%Z -> Str.int_wrap z = z.
Proof.
  unfold Str.int_wrap, Str.INT_MAX. intros H.
  rewrite Z.mod_small by lia. lia.
Qed.

Example int_wrap_past_INT_MAX :
  Str.of_int (Str.int_wrap (Str.INT_MAX + 1)) = "-2147483648".
Proof. reflexivity. Qed.

Lemma ascii_compare_refl (a : ascii) : Ascii.compare a a = Eq.
Proof. unfold Ascii.compare. apply N.compare_refl. Qed.

Lemma ascii_compare_trans (a b c : ascii) :
  Ascii.compare a b = Lt -> Ascii.compare b c = Lt -> Ascii.compare a c = Lt.
Proof.
  unfold Ascii.compare. rewrite !N.compare_lt_iff. apply N.lt_trans.
Qed.

Lemma string_compare_refl (s : string) : String.compare s s = Eq.
Proof.
  induction s as [|a s IH]; simpl; [reflexivity|].
  now rewrite ascii_compare_refl.
Qed.

Lemma string_compare_trans (a b c : string) :
  String.compare a b = Lt -> String.compare b c = Lt -> String.compare a c = Lt.
Proof.
  revert b c. induction a as [|x a IH]; intros [|y b] [|z c]; simpl;
    try congruence.
  destruct (Ascii.compare x y) eqn:Hxy; try discriminate.
  - apply Ascii.compare_eq_iff in Hxy. subst y.
    destruct (Ascii.compare x z); try congruence. intros. eapply IH; eauto.
  - intros _. destruct (Ascii.compare y z) eqn:Hyz; try discriminate.
    + apply Ascii.compare_eq_iff in Hyz. subst z. now rewrite Hxy.
    + intros _. now rewrite (ascii_compare_trans x y z).
Qed.

Lemma lt_irrefl (a : string) : Str.lt a a = false.
Proof. unfold Str.lt, String.ltb. now rewrite string_compare_refl. Qed.

Lemma lt_trans (a b c : string) :
  Str.lt a b = true -> Str.lt b c = true -> Str.lt a c = true.
Proof.
  unfold Str.lt, String.ltb. intros Hab Hbc.
  destruct (String.compare a b) eqn:E1; try discriminate.
  destruct (String.compare b c) eqn:E2; try discriminate.
  now rewrite (string_compare_trans a b c).
Qed.

Lemma lt_asym (a b : string) : Str.lt a b = true -> Str.lt b a = false.
Proof.
  intros H. destruct (Str.lt b a) eqn:E; [|reflexivity].
  pose proof (lt_trans _ _ _ H E) as F. now rewrite lt_irrefl in F.
Qed.

Lemma lt_total (a b : string) :
  Str.lt a b = false -> Str.lt b a = false -> a = b.
Proof.
  unfold Str.lt, String.ltb. rewrite (String.compare_antisym b a).
  destruct (String.compare a b) eqn:E; simpl; try discriminate.
  intros _ _. now apply String.compare_eq_iff.
Qed.

Lemma lt_neq (a b : string) : Str.lt a b = true -> a <> b.
Proof. intros H ->. now rewrite lt_irrefl in H. Qed.

Lemma gt_lt (a b : string) : Str.gt a b = Str.lt b a.
Proof. reflexivity. Qed.

Lemma eq_refl_true (a : string) : Str.eq a a = true.
Proof. apply String.eqb_refl. Qed.

Lemma eq_true_iff (a b : string) : Str.eq a b = true <-> a = b.
Proof. apply String.eqb_eq. Qed.

Lemma eq_false_iff (a b : string) : Str.eq a b = false <-> a <> b.
Proof. apply String.eqb_neq. Qed.

Lemma empty_true_iff (s : string) : Str.empty s = true <-> s = "".
Proof. destruct s; simpl; split; congruence. Qed.

Lemma append_assoc (a b c : string) : (a ++ b) ++ c = a ++ (b ++ c).
Proof. induction a as [|x a IH]; simpl; [reflexivity|now rewrite IH]. Qed.

Lemma append_nil_r (a : string) : a ++ "" = a.
Proof. induction a as [|x a IH]; simpl; [reflexivity|now rewrite IH]. Qed.

Lemma length_append (a b : string) :
  String.length (a ++ b) = String.length a + String.length b.
Proof. induction a as [|x a IH]; simpl; [reflexivity|now rewrite IH]. Qed.

End StringOrder.

(** ** The search tree *)

Section SearchTree.

Lemma size_inOrder nd : List.length (inOrder nd) = size nd.
Proof.
  induction nd as [|c l IHl r IHr]; simpl; [reflexivity|].
  rewrite length_app. simpl. lia.
Qed.

Lemma allKeys_weaken (P Q : string -> Prop) nd :
  (forall k, P k -> Q k) -> allKeys P nd -> allKeys Q nd.
Proof.
  intros PQ. induction nd as [|c l IHl r IHr]; simpl; [trivial|].
  intros (H & Hl & Hr). auto.
Qed.

Lemma allKeys_Forall (P : string -> Prop) nd :
  allKeys P nd <-> Forall P (keys nd).
Proof.
  unfold keys. induction nd as [|c l IHl r IHr]; simpl.
  - split; auto.
  - rewrite map_app. simpl. rewrite Forall_app, Forall_cons_iff.
    rewrite IHl, IHr. tauto.
Qed.

Lemma allKeys_In (P : string -> Prop) nd c :
  allKeys P nd -> In c (inOrder nd) -> P (courseNumber c).
Proof.
  rewrite allKeys_Forall, Forall_forall. intros H Hin.
  apply H. unfold keys. now apply in_map.
Qed.

Lemma allKeys_insertHelper (P : string -> Prop) nd c :
  allKeys P nd -> P (courseNumber c) -> allKeys P (insertHelper nd c).
Proof.
  induction nd as [|d l IHl r IHr]; simpl; [tauto|].
  intros (Hd & Hl & Hr) Hc.
  destruct (Str.lt (courseNumber c) (courseNumber d));
    [|destruct (Str.gt (courseNumber c) (courseNumber d))]; simpl; auto.
Qed.

Lemma bst_insertHelper nd c : bst nd -> bst (insertHelper nd c).
Proof.
  induction nd as [|d l IHl r IHr]; simpl; [tauto|].
  intros (Hl & Hr & Bl & Br).
  destruct (Str.lt (courseNumber c) (courseNumber d)) eqn:E1;
    [|destruct (Str.gt (courseNumber c) (courseNumber d)) eqn:E2]; simpl.
  - repeat split; auto. now apply allKeys_insertHelper.
  - repeat split; auto. now apply allKeys_insertHelper.
  - repeat split; auto.
Qed.

Lemma reachable_bst nd : reachable nd -> bst nd.
Proof.
  induction 1 as [|nd c _ IH]; simpl; [trivial|now apply bst_insertHelper].
Qed.

Lemma bst_strictly_ascending nd : bst nd -> strictly_ascending (keys nd).
Proof.
  unfold strictly_ascending, keys.
  induction nd as [|d l IHl r IHr]; simpl; [constructor|].
  intros (Hl & Hr & Bl & Br). rewrite map_app. simpl.
  apply allKeys_Forall in Hl, Hr. unfold keys in Hl, Hr.
  specialize (IHl Bl). specialize (IHr Br).
  induction (map courseNumber (inOrder l)) as [|k ks IHk]; simpl.
  - constructor; assumption.
  - inversion IHl as [|? ? Hs Hf]; subst. inversion Hl as [|? ? Hk Hks]; subst.
    constructor; [now apply IHk|].
    apply Forall_app. split; [assumption|].
    constructor; [assumption|].
    eapply Forall_impl; [|exact Hr]. simpl. intros x Hx.
    eapply lt_trans; eassumption.
Qed.

Lemma strictly_ascending_NoDup ks : strictly_ascending ks -> NoDup ks.
Proof.
  induction 1 as [|k ks Hs IH Hf]; constructor; [|assumption].
  intros Hin. rewrite Forall_forall in Hf. specialize (Hf _ Hin).
  now rewrite lt_irrefl in Hf.
Qed.

(** [searchHelper] only ever returns a course stored under the key it was
    asked for. *)
Lemma searchHelper_Some nd k c :
  searchHelper nd k = Some c -> In c (inOrder nd) /\ courseNumber c = k.
Proof.
  induction nd as [|d l IHl r IHr]; simpl; [discriminate|].
  destruct (Str.eq k (courseNumber d)) eqn:E.
  - intros [= <-]. apply eq_true_iff in E. split; [|now symmetry].
    apply in_or_app. right. now left.
  - destruct (Str.lt k (courseNumber d)); intros H.
    + destruct (IHl H). split; [|assumption]. apply in_or_app. now left.
    + destruct (IHr H). split; [|assumption]. apply in_or_app. right. now right.
Qed.

(** In a search tree [searchHelper] finds every stored course. *)
Lemma searchHelper_complete nd c :
  bst nd -> In c (inOrder nd) -> searchHelper nd (courseNumber c) = Some c.
Proof.
  induction nd as [|d l IHl r IHr]; simpl; [tauto|].
  intros (Hl & Hr & Bl & Br) Hin.
  apply in_app_or in Hin. destruct Hin as [Hin|[->|Hin]].
  - pose proof (allKeys_In _ _ _ Hl Hin) as Hlt. simpl in Hlt.
    rewrite (proj2 (eq_false_iff _ _) (lt_neq _ _ Hlt)), Hlt. auto.
  - now rewrite eq_refl_true.
  - pose proof (allKeys_In _ _ _ Hr Hin) as Hlt. simpl in Hlt.
    assert (Hne : courseNumber c <> courseNumber d)
      by (intros E; symmetry in E; revert E; now apply lt_neq).
    rewrite (proj2 (eq_false_iff _ _) Hne), (lt_asym _ _ Hlt). auto.
Qed.

Lemma searchHelper_None nd k :
  searchHelper nd k = None -> bst nd -> ~ In k (keys nd).
Proof.
  intros Hs Hb Hin. unfold keys in Hin. apply in_map_iff in Hin.
  destruct Hin as (c & <- & Hin).
  now rewrite (searchHelper_complete nd c Hb Hin) in Hs.
Qed.

(** After an insertion the inserted course is what a search for its number
    returns. *)
Lemma searchHelper_insertHelper_same nd c :
  searchHelper (insertHelper nd c) (courseNumber c) = Some c.
Proof.
  induction nd as [|d l IHl r IHr]; simpl.
  - now rewrite eq_refl_true.
  - destruct (Str.lt (courseNumber c) (courseNumber d)) eqn:E1.
    + simpl. rewrite (proj2 (eq_false_iff _ _) (lt_neq _ _ E1)), E1. exact IHl.
    + rewrite gt_lt. destruct (Str.lt (courseNumber d) (courseNumber c)) eqn:E2.
      * simpl. assert (Hne : courseNumber c <> courseNumber d)
          by (intros E; symmetry in E; revert E; now apply lt_neq).
        rewrite (proj2 (eq_false_iff _ _) Hne), E1. exact IHr.
      * simpl. pose proof (lt_total _ _ E1 E2) as Heq.
        rewrite (proj2 (eq_true_iff _ _) Heq). rewrite <- Heq.
        now destruct c.
Qed.

(** An insertion does not change what a search for another number returns. *)
Lemma searchHelper_insertHelper_other nd c k :
  k <> courseNumber c ->
  searchHelper (insertHelper nd c) k = searchHelper nd k.
Proof.
  intros Hk. induction nd as [|d l IHl r IHr]; simpl.
  - rewrite (proj2 (eq_false_iff _ _) Hk). now destruct (Str.lt k (courseNumber c)).
  - destruct (Str.lt (courseNumber c) (courseNumber d)) eqn:E1.
    + simpl. now rewrite IHl.
    + rewrite gt_lt. destruct (Str.lt (courseNumber d) (courseNumber c)) eqn:E2.
      * simpl. now rewrite IHr.
      * simpl. pose proof (lt_total _ _ E1 E2) as Heq.
        destruct (Str.eq k (courseNumber d)) eqn:E3; [|reflexivity].
        apply eq_true_iff in E3. congruence.
Qed.

End SearchTree.

(** ** Insertion and the visit sequence *)

Section Insertion.

Lemma replaceCourse_neq c x :
  courseNumber x <> courseNumber c -> replaceCourse c x = x.
Proof.
  intros H. unfold replaceCourse. now rewrite (proj2 (eq_false_iff _ _) H).
Qed.

Lemma replaceCourse_eq c x :
  courseNumber x = courseNumber c -> replaceCourse c x = c.
Proof.
  intros H. unfold replaceCourse. now rewrite (proj2 (eq_true_iff _ _) H).
Qed.

Lemma replaceCourse_other c xs :
  Forall (fun x => courseNumber x <> courseNumber c) xs ->
  map (replaceCourse c) xs = xs.
Proof.
  induction 1 as [|x xs Hx _ IH]; simpl; [reflexivity|].
  now rewrite replaceCourse_neq, IH.
Qed.

Lemma allKeys_courses (P : string -> Prop) nd :
  allKeys P nd -> Forall (fun x => P (courseNumber x)) (inOrder nd).
Proof.
  intros H. apply Forall_forall. intros x Hx. eapply allKeys_In; eauto.
Qed.

(** A new course number adds one entry to the visit sequence. *)
Lemma inOrder_insertHelper_fresh nd c :
  ~ In (courseNumber c) (keys nd) ->
  Permutation (inOrder (insertHelper nd c)) (c :: inOrder nd).
Proof.
  unfold keys. induction nd as [|d l IHl r IHr]; simpl; intros Hnin.
  - apply Permutation_refl.
  - rewrite map_app, in_app_iff in Hnin. simpl in Hnin.
    destruct (Str.lt (courseNumber c) (courseNumber d)) eqn:E1.
    + simpl. rewrite (IHl ltac:(tauto)). reflexivity.
    + rewrite gt_lt.
      destruct (Str.lt (courseNumber d) (courseNumber c)) eqn:E2.
      * simpl. rewrite (IHr ltac:(tauto)).
        change (c :: inOrder l ++ d :: inOrder r)%list
          with (c :: (inOrder l ++ d :: inOrder r))%list.
        rewrite (Permutation_middle (inOrder l) (d :: inOrder r) c).
        apply Permutation_app_head. apply perm_swap.
      * pose proof (lt_total _ _ E1 E2). intuition congruence.
Qed.

Lemma inOrder_mapCourses f nd : inOrder (mapCourses f nd) = map f (inOrder nd).
Proof.
  induction nd as [|d l IHl r IHr]; simpl; [reflexivity|].
  now rewrite map_app, IHl, IHr.
Qed.

Lemma mapCourses_id f nd :
  Forall (fun x => f x = x) (inOrder nd) -> mapCourses f nd = nd.
Proof.
  induction nd as [|d l IHl r IHr]; simpl; [reflexivity|].
  rewrite Forall_app, Forall_cons_iff. intros (Hl & Hd & Hr).
  now rewrite Hd, IHl, IHr.
Qed.

Lemma mapCourses_replaceCourse_other c nd :
  Forall (fun x => courseNumber x <> courseNumber c) (inOrder nd) ->
  mapCourses (replaceCourse c) nd = nd.
Proof.
  intros H. apply mapCourses_id. eapply Forall_impl; [|exact H].
  apply replaceCourse_neq.
Qed.

(** On a course number already in a search tree, [insertHelper] changes no
    pointer: the tree keeps its nodes and the node with that number gets
    the new data. *)
Lemma insertHelper_present nd c :
  bst nd -> In (courseNumber c) (keys nd) ->
  insertHelper nd c = mapCourses (replaceCourse c) nd.
Proof.
  unfold keys. induction nd as [|d l IHl r IHr]; simpl; [tauto|].
  intros (Hl & Hr & Bl & Br) Hin.
  rewrite map_app, in_app_iff in Hin. simpl in Hin.
  apply allKeys_courses in Hl, Hr.
  assert (Fl : Str.lt (courseNumber c) (courseNumber d) = false ->
               Forall (fun x => courseNumber x <> courseNumber c) (inOrder l)).
  { intros E. eapply Forall_impl; [|exact Hl]. simpl. intros x Hx Heq.
    rewrite Heq in Hx. pose proof (lt_asym _ _ Hx). congruence. }
  assert (Fr : Str.lt (courseNumber d) (courseNumber c) = false ->
               Forall (fun x => courseNumber x <> courseNumber c) (inOrder r)).
  { intros E. eapply Forall_impl; [|exact Hr]. simpl. intros x Hx Heq.
    rewrite Heq in Hx. congruence. }
  destruct (Str.lt (courseNumber c) (courseNumber d)) eqn:E1.
  - pose proof (lt_asym _ _ E1) as E2. specialize (Fr E2).
    assert (Hl' : In (courseNumber c) (map courseNumber (inOrder l))).
    { destruct Hin as [H|[H|H]]; [assumption| |].
      - rewrite H in E1. now rewrite lt_irrefl in E1.
      - apply in_map_iff in H. destruct H as (x & Hx & Hxin).
        rewrite Forall_forall in Fr. now specialize (Fr x Hxin). }
    rewrite (IHl Bl Hl'), (mapCourses_replaceCourse_other c r Fr).
    now rewrite (replaceCourse_neq c d (not_eq_sym (lt_neq _ _ E1))).
  - specialize (Fl Logic.eq_refl). rewrite gt_lt.
    destruct (Str.lt (courseNumber d) (courseNumber c)) eqn:E2.
    + assert (Hr' : In (courseNumber c) (map courseNumber (inOrder r))).
      { destruct Hin as [H|[H|H]]; [| |assumption].
        - apply in_map_iff in H. destruct H as (x & Hx & Hxin).
          rewrite Forall_forall in Fl. now specialize (Fl x Hxin).
        - rewrite H in E2. now rewrite lt_irrefl in E2. }
      rewrite (IHr Br Hr'), (mapCourses_replaceCourse_other c l Fl).
      now rewrite (replaceCourse_neq c d (lt_neq _ _ E2)).
    + specialize (Fr Logic.eq_refl). pose proof (lt_total _ _ E1 E2) as Heq.
      rewrite (mapCourses_replaceCourse_other c l Fl),
        (mapCourses_replaceCourse_other c r Fr).
      rewrite (replaceCourse_eq c d (Logic.eq_sym Heq)), <- Heq.
      now destruct c.
Qed.

Lemma inOrder_insertHelper_present nd c :
  bst nd -> In (courseNumber c) (keys nd) ->
  inOrder (insertHelper nd c) = map (replaceCourse c) (inOrder nd).
Proof.
  intros Hb Hin. now rewrite insertHelper_present, inOrder_mapCourses.
Qed.

Lemma size_insertHelper_present nd c :
  bst nd -> In (courseNumber c) (keys nd) ->
  size (insertHelper nd c) = size nd.
Proof.
  intros Hb Hin. rewrite <- !size_inOrder.
  now rewrite inOrder_insertHelper_present, length_map.
Qed.

Lemma keys_insertHelper_present nd c :
  bst nd -> In (courseNumber c) (keys nd) ->
  keys (insertHelper nd c) = keys nd.
Proof.
  intros Hb Hin. unfold keys.
  rewrite inOrder_insertHelper_present by assumption.
  rewrite map_map. apply map_ext. intros x. unfold replaceCourse.
  destruct (Str.eq (courseNumber x) (courseNumber c)) eqn:E; [|reflexivity].
  apply eq_true_iff in E. now symmetry.
Qed.

(** Inserting a list of courses, first to last. *)
Lemma fold_insertHelper_fresh cs : forall nd,
  NoDup (map courseNumber cs) ->
  (forall c, In c cs -> ~ In (courseNumber c) (keys nd)) ->
  Permutation (inOrder (fold_left insertHelper cs nd)) (inOrder nd ++ cs).
Proof.
  induction cs as [|c cs IH]; simpl; intros nd Hnd Hfresh.
  - now rewrite app_nil_r.
  - inversion Hnd as [|? ? Hc Hcs]; subst.
    assert (Hp : Permutation (inOrder (insertHelper nd c)) (c :: inOrder nd))
      by (apply inOrder_insertHelper_fresh; auto).
    rewrite IH; [| assumption |].
    + rewrite Hp. simpl. apply Permutation_middle.
    + intros x Hx Hin. unfold keys in Hin.
      rewrite Hp in Hin. simpl in Hin. destruct Hin as [Heq|Hin].
      * apply Hc. rewrite Heq. now apply in_map.
      * revert Hin. apply Hfresh. now right.
Qed.

Lemma fold_insertHelper_bst cs : forall nd,
  bst nd -> bst (fold_left insertHelper cs nd).
Proof.
  induction cs as [|c cs IH]; simpl; intros nd Hb; [assumption|].
  apply IH. now apply bst_insertHelper.
Qed.

Lemma fold_insertHelper_reachable cs : forall nd,
  reachable nd -> reachable (fold_left insertHelper cs nd).
Proof.
  induction cs as [|c cs IH]; simpl; intros nd Hb; [assumption|].
  apply IH. now constructor.
Qed.

(** Two strictly ascending sequences of courses with the same members are
    the same sequence. *)
Lemma ascending_perm_unique (xs ys : list Course) :
  strictly_ascending (map courseNumber xs) ->
  strictly_ascending (map courseNumber ys) ->
  Permutation xs ys -> xs = ys.
Proof.
  revert ys. induction xs as [|x xs IH]; intros ys Hx Hy Hp.
  - apply Permutation_nil in Hp. now subst.
  - destruct ys as [|y ys].
    + apply Permutation_sym, Permutation_nil in Hp. discriminate.
    + simpl in Hx, Hy.
      inversion Hx as [|? ? Sx Fx]; subst. inversion Hy as [|? ? Sy Fy]; subst.
      rewrite Forall_forall in Fx, Fy.
      assert (Hxy : x = y).
      { assert (Hin1 : In x (y :: ys))
          by (eapply Permutation_in; [exact Hp|now left]).
        assert (Hin2 : In y (x :: xs))
          by (eapply Permutation_in; [apply Permutation_sym; exact Hp|now left]).
        destruct Hin1 as [->|Hin1]; [reflexivity|].
        destruct Hin2 as [->|Hin2]; [reflexivity|].
        pose proof (Fx _ (in_map courseNumber _ _ Hin2)) as L1.
        pose proof (Fy _ (in_map courseNumber _ _ Hin1)) as L2.
        pose proof (lt_asym _ _ L1). congruence. }
      subst y. f_equal. apply IH; try assumption.
      now apply Permutation_cons_inv in Hp.
Qed.

End Insertion.

(** ** The text the program writes *)

(** Unfolds the monad and brings the text written to [cout] into the form
    [cout w ++ (s1 ++ (s2 ++ ...))]. *)
Ltac run :=
  cbv [bind print endl ret insert search clear];
  cbn [courseTree cout root fst snd];
  fold nl; rewrite ?append_assoc.

Section Output.

Lemma bind_print {B : Type} (s : string) (k : unit -> M B) w :
  bind (print s) k w = k tt (mkWorld (courseTree w) (cout w ++ s)).
Proof. reflexivity. Qed.

Lemma listing_app xs ys : listing (xs ++ ys) = listing xs ++ listing ys.
Proof.
  induction xs as [|x xs IH]; simpl; [reflexivity|].
  now rewrite IH, append_assoc.
Qed.

Lemma inOrderHelper_run nd w :
  inOrderHelper nd w =
  (tt, mkWorld (courseTree w) (cout w ++ listing (inOrder nd))).
Proof.
  revert w. induction nd as [|c l IHl r IHr]; intros w; simpl.
  - unfold ret. rewrite append_nil_r. now destruct w.
  - unfold bind at 1. rewrite IHl. run. rewrite IHr. run.
    rewrite listing_app. simpl. unfold courseLine.
    now rewrite ?append_assoc.
Qed.

Lemma printInOrder_run w :
  printInOrder w =
  (tt, mkWorld (courseTree w)
         (cout w ++ match root (courseTree w) with
                    | nullptr => "No courses loaded." ++ nl
                    | node _ _ _ => listing (inOrder (root (courseTree w)))
                    end)).
Proof.
  unfold printInOrder. destruct (root (courseTree w)) eqn:E.
  - run. reflexivity.
  - rewrite <- E. apply inOrderHelper_run.
Qed.

Lemma forEach_insert cs : forall w,
  forEach cs insert w =
  (tt, mkWorld (mkCourseBST (fold_left insertHelper cs (root (courseTree w))))
               (cout w)).
Proof.
  induction cs as [|c cs IH]; intros w; simpl.
  - unfold ret. now destruct w as [[t] o].
  - unfold bind, insert at 1. now rewrite IH.
Qed.

End Output.

(** ** Streams: [getline] and the loops over it *)

Section Streams.

Variable delimiter : ascii.

Lemma getline_chars_length strm :
  String.length (snd (getline_chars strm delimiter)) <= String.length strm.
Proof.
  induction strm as [|c strm IH]; simpl; [lia|].
  destruct (Ascii.eqb c delimiter); simpl; [lia|].
  destruct (getline_chars strm delimiter); simpl in *. lia.
Qed.

Lemma getline_length strm token rest :
  getline strm delimiter = Some (token, rest) ->
  String.length rest < String.length strm.
Proof.
  destruct strm as [|c strm]; [discriminate|].
  unfold getline. intros [= H]. simpl in *.
  pose proof (getline_chars_length strm) as L.
  destruct (Ascii.eqb c delimiter).
  - injection H as _ <-. lia.
  - destruct (getline_chars strm delimiter). injection H as _ <-.
    simpl in L. lia.
Qed.

Lemma split_loop_acc fuel : forall strm tokens,
  split_loop fuel strm delimiter tokens =
  (tokens ++ split_loop fuel strm delimiter [])%list.
Proof.
  induction fuel as [|fuel IH]; intros strm tokens; cbn [split_loop app].
  - now rewrite app_nil_r.
  - destruct (getline strm delimiter) as [[token rest]|].
    + rewrite (IH rest (tokens ++ [token])%list), (IH rest [token]).
      now rewrite <- app_assoc.
    + now rewrite app_nil_r.
Qed.

(** The loop of [split] ends by itself: any bound above the length of the
    stream gives the same tokens. *)
Lemma split_loop_fuel f1 : forall f2 strm tokens,
  String.length strm < f1 -> String.length strm < f2 ->
  split_loop f1 strm delimiter tokens = split_loop f2 strm delimiter tokens.
Proof.
  induction f1 as [|f1 IH]; intros f2 strm tokens H1 H2; [lia|].
  destruct f2 as [|f2]; [lia|]. simpl.
  destruct (getline strm delimiter) as [[token rest]|] eqn:E; [|reflexivity].
  apply getline_length in E. apply IH; lia.
Qed.

Lemma split_nil : split "" delimiter = [].
Proof. reflexivity. Qed.

Lemma split_cons strm token rest :
  getline strm delimiter = Some (token, rest) ->
  split strm delimiter = token :: split rest delimiter.
Proof.
  intros E. unfold split at 1. simpl. rewrite E.
  rewrite split_loop_acc. simpl. f_equal.
  apply split_loop_fuel; [|lia]. now apply getline_length in E.
Qed.

End Streams.

(** ** The loader *)

Section Loader.

(** The loop over the file is the loop over its lines; the bound on the
    iterations plays no role once it exceeds the length of the file. *)
Lemma readLines_loadLines fuel : forall inputFile lineNumber,
  String.length inputFile < fuel ->
  readLines fuel inputFile lineNumber = loadLines (fileLines inputFile) lineNumber.
Proof.
  unfold fileLines.
  induction fuel as [|fuel IH]; intros inputFile n Hlen; [lia|]. simpl.
  destruct (getline inputFile "010"%char) as [[line rest]|] eqn:E.
  - rewrite (split_cons _ _ _ _ E). simpl.
    rewrite IH; [reflexivity|]. apply getline_length in E. lia.
  - destruct inputFile; [reflexivity|discriminate].
Qed.

Lemma loadLine_classify lineNumber line w :
  loadLine lineNumber line w =
  match classify line with
  | Blank => (tt, w)
  | TooFewFields =>
      (tt, mkWorld (courseTree w) (cout w ++ formatError lineNumber line))
  | MissingField =>
      (tt, mkWorld (courseTree w) (cout w ++ missingFieldWarning lineNumber))
  | Accepted c =>
      (tt, mkWorld (mkCourseBST (insertHelper (root (courseTree w)) c)) (cout w))
  end.
Proof.
  unfold loadLine, classify.
  destruct (Str.empty (trim line)); [reflexivity|]. cbv zeta.
  destruct (Nat.ltb (List.length (split line ","%char)) 2).
  - run. reflexivity.
  - destruct (negb (Str.empty (courseNumber (courseOfTokens (split line ","%char)))) &&
              negb (Str.empty (courseTitle (courseOfTokens (split line ","%char))))).
    + reflexivity.
    + run. reflexivity.
Qed.

Lemma loadLines_run lines : forall lineNumber w,
  loadLines lines lineNumber w =
  (tt, mkWorld (mkCourseBST (fold_left insertHelper (lineCourses lines)
                                       (root (courseTree w))))
               (cout w ++ reports lines lineNumber)).
Proof.
  induction lines as [|line lines IH]; intros n w;
    cbn [loadLines lineCourses reports fold_left].
  - unfold ret. rewrite append_nil_r. now destruct w as [[t] o].
  - unfold bind. rewrite loadLine_classify.
    destruct (classify line); rewrite IH;
      cbn [courseTree cout root fold_left append];
      rewrite ?append_assoc; reflexivity.
Qed.

(** A file that opens: the store is emptied, refilled from the lines, and
    the load reports success. *)
Lemma loadCoursesFromFile_open fs fileName content w :
  fs fileName = Some content ->
  loadCoursesFromFile fs fileName w =
  (true,
   mkWorld (mkCourseBST (fold_left insertHelper (lineCourses (fileLines content))
                                   nullptr))
           (cout w ++ reports (fileLines content) 0 ++
            "Courses successfully loaded from file: " ++ fileName ++ nl)).
Proof.
  intros E. unfold loadCoursesFromFile. rewrite E.
  rewrite readLines_loadLines by lia.
  unfold bind at 1. unfold clear at 1. cbv zeta.
  unfold bind at 1. rewrite loadLines_run. run. reflexivity.
Qed.

(** A file that does not open: one line of text, nothing else changes. *)
Lemma loadCoursesFromFile_closed fs fileName w :
  fs fileName = None ->
  loadCoursesFromFile fs fileName w =
  (false, mkWorld (courseTree w) (cout w ++ "Error opening file: " ++ fileName ++ nl)).
Proof.
  intros E. unfold loadCoursesFromFile. rewrite E. run. reflexivity.
Qed.

Lemma loaded_reachable lines : reachable (fold_left insertHelper (lineCourses lines) nullptr).
Proof. apply fold_insertHelper_reachable. constructor. Qed.

End Loader.

(** ** Fields and prerequisites of a line *)

Section Fields.

Lemma skipn_nth (tokens : list string) : forall i,
  i < List.length tokens ->
  skipn i tokens = nth i tokens "" :: skipn (S i) tokens.
Proof.
  induction tokens as [|t tokens IH]; intros i Hi; simpl in Hi; [lia|].
  destruct i as [|i]; [reflexivity|].
  change (skipn (S i) (t :: tokens)) with (skipn i tokens).
  rewrite IH by lia. reflexivity.
Qed.

(** The index loop over the tokens keeps, in order, the trimmed fields that
    are not empty. *)
Lemma prereqLoop_filter tokens steps : forall i prereqs,
  List.length tokens - i <= steps ->
  prereqLoop steps i tokens prereqs =
  (prereqs ++ filter nonEmpty (map trim (skipn i tokens)))%list.
Proof.
  induction steps as [|steps IH]; intros i prereqs Hs; cbn [prereqLoop].
  - rewrite skipn_all2 by lia. simpl. now rewrite app_nil_r.
  - destruct (Nat.ltb i (List.length tokens)) eqn:E.
    + apply Nat.ltb_lt in E. rewrite IH by lia.
      rewrite (skipn_nth tokens i E). cbn [map filter]. unfold nonEmpty at 2.
      destruct (negb (Str.empty (trim (nth i tokens "")))).
      * now rewrite <- app_assoc.
      * reflexivity.
    + apply Nat.ltb_ge in E. rewrite skipn_all2 by lia. simpl.
      now rewrite app_nil_r.
Qed.

Lemma prerequisites_courseOfTokens tokens :
  prerequisites (courseOfTokens tokens) =
  filter nonEmpty (map trim (skipn 2 tokens)).
Proof.
  unfold courseOfTokens. cbn [prerequisites].
  now rewrite prereqLoop_filter by lia.
Qed.

End Fields.

(** ** [split] and the fields of a line *)

Section SpecFields.

Variable delimiter : ascii.

Lemma spec_fields_not_nil line : spec_fields line delimiter <> [].
Proof.
  destruct line as [|c line]; simpl; [discriminate|].
  destruct (Ascii.eqb c delimiter); [discriminate|].
  destruct (spec_fields line delimiter); discriminate.
Qed.

Lemma spec_fields_getline line :
  spec_fields line delimiter =
  if Str.mem delimiter line
  then fst (getline_chars line delimiter) ::
       spec_fields (snd (getline_chars line delimiter)) delimiter
  else [line].
Proof.
  induction line as [|c line IH]; simpl; [reflexivity|].
  rewrite (Ascii.eqb_sym delimiter c).
  destruct (Ascii.eqb c delimiter); simpl; [reflexivity|].
  rewrite IH. destruct (getline_chars line delimiter) as [token rest]. simpl.
  now destruct (Str.mem delimiter line).
Qed.

Lemma getline_chars_no_delimiter line :
  Str.mem delimiter line = false -> getline_chars line delimiter = (line, "").
Proof.
  induction line as [|c line IH]; simpl; [reflexivity|].
  rewrite (Ascii.eqb_sym delimiter c).
  destruct (Ascii.eqb c delimiter); simpl; [discriminate|].
  intros H. now rewrite (IH H).
Qed.

(** [split] returns the fields of the line, except that an empty last
    field is not returned. *)
Lemma split_spec_fields line :
  split line delimiter = dropLastEmpty (spec_fields line delimiter).
Proof.
  remember (String.length line) as n eqn:Hn. revert line Hn.
  induction n as [n IH] using lt_wf_ind. intros line Hn.
  destruct line as [|c line]; [reflexivity|].
  assert (E : getline (String c line) delimiter =
              Some (getline_chars (String c line) delimiter)) by reflexivity.
  destruct (getline_chars (String c line) delimiter) as [token rest] eqn:G.
  rewrite (split_cons _ _ _ _ E). pose proof (getline_length _ _ _ _ E) as L.
  rewrite spec_fields_getline, G. cbn [fst snd].
  destruct (Str.mem delimiter (String c line)) eqn:M.
  - rewrite (IH (String.length rest) ltac:(lia) rest Logic.eq_refl).
    cbn [dropLastEmpty].
    destruct (spec_fields rest delimiter) eqn:F; [|reflexivity].
    now destruct (spec_fields_not_nil rest).
  - rewrite (getline_chars_no_delimiter _ M) in G. injection G as <- <-.
    reflexivity.
Qed.

Lemma dropLastEmpty_cases fields :
  dropLastEmpty fields = fields \/ fields = (dropLastEmpty fields ++ [""])%list.
Proof.
  induction fields as [|f fields IH]; [now left|]. cbn [dropLastEmpty].
  destruct fields as [|g fields].
  - destruct f; [now right|now left].
  - destruct IH as [IH|IH]; [left|right].
    + now rewrite IH.
    + change ((f :: dropLastEmpty (g :: fields)) ++ [""])%list
        with (f :: (dropLastEmpty (g :: fields) ++ [""]))%list.
      now rewrite <- IH.
Qed.

End SpecFields.

Lemma filter_trim_dropLastEmpty n fields :
  filter nonEmpty (map trim (skipn n (dropLastEmpty fields))) =
  filter nonEmpty (map trim (skipn n fields)).
Proof.
  destruct (dropLastEmpty_cases fields) as [->|E]; [reflexivity|].
  rewrite E at 2. rewrite skipn_app, map_app, filter_app.
  assert (H : filter nonEmpty (map trim (skipn (n - List.length (dropLastEmpty fields)) [""])) = []).
  { destruct (n - List.length (dropLastEmpty fields)) as [|k]; [reflexivity|].
    cbn [skipn]. now rewrite skipn_nil. }
  rewrite H. now rewrite app_nil_r.
Qed.

(** ** Upper case *)

Section UpperCase.

Lemma toupper_idempotent c : Str.toupper (Str.toupper c) = Str.toupper c.
Proof.
  destruct c as [[] [] [] [] [] [] [] []]; reflexivity.
Qed.

Lemma toUpper_idempotent s : toUpper (toUpper s) = toUpper s.
Proof.
  induction s as [|c s IH]; simpl; [reflexivity|].
  now rewrite toupper_idempotent, IH.
Qed.

End UpperCase.

(** ** Describing a course *)

Section Describe.

Lemma printPrerequisite_run p w :
  printPrerequisite p w =
  (tt, mkWorld (courseTree w) (cout w ++ prerequisiteLine (root (courseTree w)) p)).
Proof.
  unfold printPrerequisite, prerequisiteLine. cbv zeta.
  unfold bind at 1, search at 1.
  destruct (searchHelper (root (courseTree w)) (toUpper p)); run; reflexivity.
Qed.

Lemma forEach_printPrerequisite ps : forall w,
  forEach ps printPrerequisite w =
  (tt, mkWorld (courseTree w) (cout w ++ prerequisiteLines (root (courseTree w)) ps)).
Proof.
  induction ps as [|p ps IH]; intros w; cbn [forEach prerequisiteLines].
  - unfold ret. rewrite append_nil_r. now destruct w.
  - unfold bind. rewrite printPrerequisite_run, IH.
    cbn [courseTree cout]. now rewrite append_assoc.
Qed.

Lemma printCourseInformation_run targetNumber w :
  printCourseInformation targetNumber w =
  (tt, mkWorld (courseTree w)
         (cout w ++
          match searchHelper (root (courseTree w)) (toUpper targetNumber) with
          | Some c => description (root (courseTree w)) c
          | None => notFoundMessage targetNumber
          end)).
Proof.
  unfold printCourseInformation, description, notFoundMessage. cbv zeta.
  unfold bind at 1, search at 1.
  destruct (searchHelper (root (courseTree w)) (toUpper targetNumber)) as [c|].
  - destruct (prerequisites c) as [|p ps] eqn:E.
    + run. reflexivity.
    + rewrite <- E.
      unfold endl. rewrite !bind_print.
      rewrite forEach_printPrerequisite. cbn [courseTree cout].
      fold nl. now rewrite ?append_assoc.
  - run. reflexivity.
Qed.

End Describe.

(** ** The menu *)

Section Menu.

Lemma printMenu_run w :
  printMenu w = (tt, mkWorld (courseTree w) (cout w ++ menuText)).
Proof. unfold printMenu, menuText. run. reflexivity. Qed.

Lemma mainIteration_load fs fileName dataLoaded w :
  Str.empty fileName = false ->
  mainIteration fs "1" fileName dataLoaded w =
  let r := loadCoursesFromFile fs fileName
             (mkWorld (courseTree w)
                      (cout w ++ menuText ++ "Enter course data file name: ")) in
  ((fst r, true), snd r).
Proof.
  intros E. unfold mainIteration. unfold bind at 1. rewrite printMenu_run.
  change (Str.eq "1" "1") with true. cbv iota.
  rewrite bind_print, E. cbn [courseTree cout]. rewrite append_assoc.
  unfold bind, ret.
  now destruct (loadCoursesFromFile fs fileName _).
Qed.

Lemma mainIteration_list_not_loaded fs input w :
  mainIteration fs "2" input false w =
  ((false, true),
   mkWorld (courseTree w)
           (cout w ++ menuText ++
            "Please load the data structure first (option 1)." ++ nl)).
Proof.
  unfold mainIteration. unfold bind at 1. rewrite printMenu_run.
  change (Str.eq "2" "1") with false. change (Str.eq "2" "2") with true.
  cbn [negb]. cbv iota. run. reflexivity.
Qed.

Lemma mainIteration_list_loaded fs input w :
  mainIteration fs "2" input true w =
  ((true, true),
   mkWorld (courseTree w)
           (cout w ++ menuText ++ nl ++ "Here is the list of courses:" ++ nl ++
            match root (courseTree w) with
            | nullptr => "No courses loaded." ++ nl
            | node _ _ _ => listing (inOrder (root (courseTree w)))
            end)).
Proof.
  unfold mainIteration. unfold bind at 1. rewrite printMenu_run.
  change (Str.eq "2" "1") with false. change (Str.eq "2" "2") with true.
  cbv iota. unfold endl. cbn [negb]. cbv iota. rewrite !bind_print.
  unfold bind. rewrite printInOrder_run. unfold ret. cbn [courseTree cout].
  fold nl. now rewrite ?append_assoc.
Qed.

End Menu.

(** ** Trimming *)

(** One step of the searches and of the stripping functions, the character
    class left folded. *)
Ltac unroll :=
  cbn [Str.find_first_not_of Str.find_last_not_of lstrip rstrip lastChar
       option_map String.substring Nat.add].
Tactic Notation "unroll" "in" "*" :=
  cbn [Str.find_first_not_of Str.find_last_not_of lstrip rstrip lastChar
       option_map String.substring Nat.add] in *.

Section Trimming.

Lemma find_last_not_of_first s chars : forall i,
  Str.find_first_not_of s chars = Some i ->
  exists j, Str.find_last_not_of s chars = Some j /\ i <= j /\ j < String.length s.
Proof.
  induction s as [|c s IH]; simpl; intros i; [discriminate|].
  destruct (Str.mem c chars).
  - destruct (Str.find_first_not_of s chars) as [i'|]; [|discriminate].
    intros [= <-]. destruct (IH i' Logic.eq_refl) as (j & -> & Hij & Hj).
    exists (S j). repeat split; lia.
  - intros [= <-]. destruct (Str.find_last_not_of s chars) as [j|] eqn:E.
    + exists (S j). repeat split; [lia|].
      clear IH. revert j E. induction s as [|d s IHs]; simpl; intros j; [discriminate|].
      destruct (Str.find_last_not_of s chars) as [j'|].
      * intros [= <-]. specialize (IHs j' Logic.eq_refl). lia.
      * destruct (Str.mem d chars); [discriminate|]. intros [= <-]. lia.
    + exists 0. repeat split; lia.
Qed.

(** In [trim] the second search succeeds whenever the first does, and for
    a string that fits in memory the [size_t] subtraction does not wrap. *)
Lemma trim_no_wrap s :
  (Z.of_nat (String.length s) < Str.npos)%Z ->
  trim s =
  match Str.find_first_not_of s whitespace, Str.find_last_not_of s whitespace with
  | Some start, Some end_ => Str.substr s start (end_ - start + 1)
  | _, _ => ""
  end.
Proof.
  intros Hlen. unfold trim.
  destruct (Str.find_first_not_of s whitespace) as [i|] eqn:E; [|reflexivity].
  destruct (find_last_not_of_first _ _ _ E) as (j & -> & Hij & Hj).
  cbn [Str.size_t]. f_equal. unfold Str.wrap, Str.npos in *.
  rewrite Z.mod_small by lia. lia.
Qed.

Lemma substring_lstrip s : forall i n,
  Str.find_first_not_of s whitespace = Some i ->
  String.substring i n s = String.substring 0 n (lstrip s).
Proof.
  induction s as [|c s IH]; unroll; intros i n; [discriminate|].
  destruct (Str.mem c whitespace).
  - destruct (Str.find_first_not_of s whitespace) as [i'|] eqn:E; unroll; [|discriminate].
    intros [= <-]. now apply IH.
  - intros [= <-]. reflexivity.
Qed.

Lemma lstrip_all_whitespace s :
  Str.find_first_not_of s whitespace = None -> lstrip s = "".
Proof.
  induction s as [|c s IH]; unroll; [reflexivity|].
  destruct (Str.mem c whitespace); [|discriminate].
  destruct (Str.find_first_not_of s whitespace); unroll; [discriminate|]. auto.
Qed.

Lemma find_last_not_of_lstrip s : forall i j,
  Str.find_first_not_of s whitespace = Some i ->
  Str.find_last_not_of s whitespace = Some j ->
  Str.find_last_not_of (lstrip s) whitespace = Some (j - i).
Proof.
  induction s as [|c s IH]; unroll; intros i j; [discriminate|].
  destruct (Str.mem c whitespace) eqn:M.
  - destruct (Str.find_first_not_of s whitespace) as [i'|] eqn:E; unroll; [|discriminate].
    intros [= <-].
    destruct (Str.find_last_not_of s whitespace) as [j'|] eqn:F; [|discriminate].
    intros [= <-]. cbn [Nat.sub]. now apply IH.
  - intros [= <-]. unroll. rewrite M. rewrite Nat.sub_0_r. auto.
Qed.

Lemma substring_rstrip s : forall k,
  Str.find_last_not_of s whitespace = Some k ->
  String.substring 0 (k + 1) s = rstrip s.
Proof.
  induction s as [|c s IH]; unroll; intros k; [discriminate|].
  destruct (Str.find_last_not_of s whitespace) as [k'|] eqn:F.
  - intros [= <-]. unroll. rewrite (IH k' Logic.eq_refl).
    destruct (rstrip s) eqn:R; [|reflexivity].
    exfalso. clear IH. revert k' F R.
    induction s as [|d s IHs]; unroll; intros k'; [discriminate|].
    destruct (Str.find_last_not_of s whitespace) as [k''|] eqn:F'.
    + intros _. specialize (IHs k'' Logic.eq_refl).
      destruct (rstrip s); [tauto|discriminate].
    + destruct (Str.mem d whitespace); [discriminate|].
      intros _. destruct (rstrip s); discriminate.
  - destruct (Str.mem c whitespace); [discriminate|]. intros [= <-]. unroll.
    assert (R : rstrip s = "").
    { clear IH. induction s as [|d s IHs]; unroll in *; [reflexivity|].
      destruct (Str.find_last_not_of s whitespace); [discriminate|].
      destruct (Str.mem d whitespace); [|discriminate].
      now rewrite (IHs Logic.eq_refl). }
    rewrite R. now destruct s.
Qed.

(** [trim] removes the leading and the trailing whitespace and nothing
    else, for every string that fits in memory. *)
Lemma trim_strip s :
  (Z.of_nat (String.length s) < Str.npos)%Z ->
  trim s = rstrip (lstrip s).
Proof.
  intros Hlen. rewrite (trim_no_wrap s Hlen).
  destruct (Str.find_first_not_of s whitespace) as [i|] eqn:E.
  - destruct (find_last_not_of_first _ _ _ E) as (j & F & Hij & Hj). rewrite F.
    unfold Str.substr. rewrite (substring_lstrip s i _ E).
    apply substring_rstrip.
    replace (j - i + 1 - 1) with (j - i) by lia.
    now apply find_last_not_of_lstrip.
  - now rewrite (lstrip_all_whitespace s E).
Qed.

Lemma lstrip_head s c r : lstrip s = String c r -> Str.mem c whitespace = false.
Proof.
  induction s as [|d s IH]; unroll; [discriminate|].
  destruct (Str.mem d whitespace) eqn:M; [exact IH|].
  now intros [= <- _].
Qed.

Lemma rstrip_head s c r : rstrip s = String c r -> exists r', s = String c r'.
Proof.
  destruct s as [|d s]; unroll; [discriminate|].
  destruct (rstrip s).
  - destruct (Str.mem d whitespace); [discriminate|]. intros [= <- _]. eauto.
  - intros [= <- _]. eauto.
Qed.

Lemma rstrip_last s c : lastChar (rstrip s) = Some c -> Str.mem c whitespace = false.
Proof.
  induction s as [|d s IH]; unroll; [discriminate|].
  destruct (rstrip s) as [|e r] eqn:R.
  - destruct (Str.mem d whitespace) eqn:M; unroll; [discriminate|].
    now intros [= <-].
  - exact IH.
Qed.

(** A trimmed string neither starts nor ends with whitespace. *)
Lemma trim_edges s c r :
  (Z.of_nat (String.length s) < Str.npos)%Z ->
  trim s = String c r ->
  Str.mem c whitespace = false /\
  exists d, lastChar (trim s) = Some d /\ Str.mem d whitespace = false.
Proof.
  intros Hlen. rewrite (trim_strip s Hlen). intros E. split.
  - destruct (rstrip_head _ _ _ E) as (r' & H). now apply lstrip_head in H.
  - destruct (lastChar (rstrip (lstrip s))) as [d|] eqn:L.
    + exists d. split; [reflexivity|]. now apply rstrip_last in L.
    + rewrite E in L. exfalso. clear E. revert c L.
      induction r as [|e r IH]; intros c; unroll; [discriminate|]. apply IH.
Qed.

Example trim_example :
  trim (String "009"%char "  CSCI 100 " ++ String "013"%char nl) = "CSCI 100".
Proof. reflexivity. Qed.

End Trimming.

(** ** The program on concrete inputs *)

Section Runs.

Example split_keeps_inner_empty_token :
  split "CS300,,CS200" ","%char = ["CS300"; ""; "CS200"].
Proof. reflexivity. Qed.

Example split_drops_final_empty_token :
  split "CS300,Algorithms," ","%char = ["CS300"; "Algorithms"].
Proof. reflexivity. Qed.

Example fileLines_final_newline :
  fileLines ("CS100,Intro" ++ nl ++ nl ++ "CS200,Data" ++ nl) =
  ["CS100,Intro"; ""; "CS200,Data"].
Proof. reflexivity. Qed.

Example toUpper_letters_only : toUpper "csci-101a {z}" = "CSCI-101A {Z}".
Proof. reflexivity. Qed.

Example lt_digits_then_length :
  Str.lt "CSCI100" "CSCI200" = true /\ Str.lt "CSCI10" "CSCI100" = true /\
  Str.lt "MATH201" "csci100" = true.
Proof. repeat split. Qed.

(** A session: load a file of four lines, one of them without a title,
    list the courses, describe one of them. *)
Example session :
  let content :=
    "CSCI200,Data Structures,CSCI100" ++ nl ++
    "MATH201,Discrete Mathematics" ++ nl ++
    "CSCI101" ++ nl ++
    "CSCI100,Introduction to Computer Science" ++ nl in
  cout (snd ((loadCoursesFromFile (oneFile "courses.csv" content) "courses.csv" ;;
              printInOrder ;;
              printCourseInformation "csci200") initialWorld)) =
  "File format error on line 3: fewer than two fields." ++ nl ++
  "Offending line: CSCI101" ++ nl ++
  "Courses successfully loaded from file: courses.csv" ++ nl ++
  "CSCI100, Introduction to Computer Science" ++ nl ++
  "CSCI200, Data Structures" ++ nl ++
  "MATH201, Discrete Mathematics" ++ nl ++
  nl ++
  "CSCI200, Data Structures" ++ nl ++
  "Prerequisites:" ++ nl ++
  "  CSCI100, Introduction to Computer Science" ++ nl.
Proof. reflexivity. Qed.

End Runs.

(** * Properties stated by the specification *)

(** ** Loading a file that cannot be opened *)

(** C1, as the program behaves.  When the named file cannot be opened,
    [loadCoursesFromFile] writes "Error opening file: <name>", returns
    [false] and leaves the tree exactly as it was: the tree is cleared only
    after the file has been opened.  [main] records the failure in
    [dataLoaded], and a listing requested next is refused with "Please load
    the data structure first (option 1)." *)
Theorem failed_open_leaves_store_unchanged fs fileName w :
  fs fileName = None ->
  loadCoursesFromFile fs fileName w =
    (false, mkWorld (courseTree w) (cout w ++ "Error opening file: " ++ fileName ++ nl))
  /\ (Str.empty fileName = false ->
      forall dataLoaded input,
        exists w1,
          mainIteration fs "1" fileName dataLoaded w = ((false, true), w1) /\
          courseTree w1 = courseTree w /\
          mainIteration fs "2" input false w1 =
            ((false, true),
             mkWorld (courseTree w)
                     (cout w1 ++ menuText ++
                      "Please load the data structure first (option 1)." ++ nl))).
Proof.
  intros E. split; [now apply loadCoursesFromFile_closed|].
  intros Hne dataLoaded input.
  rewrite (mainIteration_load _ _ _ _ Hne).
  rewrite (loadCoursesFromFile_closed _ _ _ E). cbn [fst snd courseTree cout].
  eexists. split; [reflexivity|]. split; [reflexivity|].
  now rewrite mainIteration_list_not_loaded.
Qed.

Lemma failed_open_leaves_store_unchanged_witness :
  loadCoursesFromFile (oneFile "courses.csv" "CS101,Intro") "missing.csv"
    (loadedFrom "CS101,Intro") =
  (false,
   mkWorld (courseTree (loadedFrom "CS101,Intro"))
           (cout (loadedFrom "CS101,Intro") ++
            "Error opening file: " ++ "missing.csv" ++ nl)).
Proof.
  apply (failed_open_leaves_store_unchanged
           (oneFile "courses.csv" "CS101,Intro") "missing.csv"
           (loadedFrom "CS101,Intro")).
  reflexivity.
Defined.

(** C1 fails as the specification states it: after a first load of a
    file holding CS101, a load of a file that does not exist returns
    [false] and the tree still holds CS101, which [printInOrder] lists
    instead of "No courses loaded." *)
Lemma failed_open_keeps_previous_courses :
  let fs := oneFile "courses.csv" "CS101,Intro" in
  let r := loadCoursesFromFile fs "missing.csv" (loadedFrom "CS101,Intro") in
  fst r = false /\
  root (courseTree (snd r)) = node (mkCourse "CS101" "Intro" []) nullptr nullptr /\
  root (courseTree (snd r)) <> nullptr /\
  cout (snd (printInOrder (snd r))) = cout (snd r) ++ "CS101, Intro" ++ nl /\
  cout (snd (printInOrder (snd r))) <> cout (snd r) ++ "No courses loaded." ++ nl.
Proof.
  vm_compute. repeat split; try reflexivity; discriminate.
Qed.

(** ** Loading a file that opens *)

(** C10.  Whenever the file opens, [loadCoursesFromFile] returns [true]
    and the last thing it writes, after the diagnostics of the lines, is
    the success message; [main] sets [dataLoaded]; this holds for an empty
    file and for a file none of whose lines is accepted, in which case the
    tree is empty and [printInOrder] writes "No courses loaded."  For a
    file whose number of lines fits an [int] the diagnostics are those of
    [reports]. *)
Theorem open_file_load_succeeds fs fileName content w :
  fs fileName = Some content ->
  fst (loadCoursesFromFile fs fileName w) = true
  /\ (exists diagnostics,
        cout (snd (loadCoursesFromFile fs fileName w)) =
          cout w ++ diagnostics ++
          "Courses successfully loaded from file: " ++ fileName ++ nl
        /\ ((Z.of_nat (List.length (fileLines content)) <= Str.INT_MAX)%Z ->
            diagnostics = reports (fileLines content) 0))
  /\ (Str.empty fileName = false ->
      forall dataLoaded, fst (mainIteration fs "1" fileName dataLoaded w) = (true, true))
  /\ (content = "" \/
      Forall (fun line => classify line = Blank \/ classify line = TooFewFields \/
                          classify line = MissingField) (fileLines content) ->
      let w1 := snd (loadCoursesFromFile fs fileName w) in
      root (courseTree w1) = nullptr /\
      printInOrder w1 =
        (tt, mkWorld (courseTree w1) (cout w1 ++ "No courses loaded." ++ nl))).
Proof.
  intros E. rewrite (loadCoursesFromFile_open _ _ _ w E). cbn [fst snd cout].
  split; [reflexivity|].
  split; [exists (reports (fileLines content) 0); split; [reflexivity|trivial]|].
  split.
  - intros Hne dataLoaded. rewrite (mainIteration_load _ _ _ _ Hne).
    now rewrite (loadCoursesFromFile_open _ _ _ _ E).
  - intros H.
    assert (Hskip : Forall (fun line => classify line = Blank \/
                              classify line = TooFewFields \/
                              classify line = MissingField) (fileLines content)).
    { destruct H as [-> | H]; [constructor|exact H]. }
    clear H.
    assert (Hnil : lineCourses (fileLines content) = []).
    { induction Hskip as [|line lines Hl _ IH]; [reflexivity|].
      cbn [lineCourses]. destruct Hl as [Hl | [Hl | Hl]]; rewrite Hl; exact IH. }
    cbv zeta. rewrite printInOrder_run. cbn [courseTree root cout].
    rewrite Hnil. split; reflexivity.
Qed.

Lemma open_file_load_succeeds_witness :
  let fs := oneFile "courses.csv" ("   " ++ nl ++ "CS101" ++ nl ++ ",Intro" ++ nl) in
  fst (loadCoursesFromFile fs "courses.csv" initialWorld) = true /\
  root (courseTree (snd (loadCoursesFromFile fs "courses.csv" initialWorld))) = nullptr.
Proof.
  intros fs.
  destruct (open_file_load_succeeds fs "courses.csv"
              ("   " ++ nl ++ "CS101" ++ nl ++ ",Intro" ++ nl) initialWorld
              Logic.eq_refl) as (Ht & _ & _ & Hskip).
  split; [exact Ht|].
  apply Hskip. right.
  change (fileLines ("   " ++ nl ++ "CS101" ++ nl ++ ",Intro" ++ nl))
    with ["   "; "CS101"; ",Intro"].
  apply Forall_cons; [left; reflexivity|].
  apply Forall_cons; [right; left; reflexivity|].
  apply Forall_cons; [right; right; reflexivity|].
  apply Forall_nil.
Defined.

(** ** Loading twice *)



(** ** Lookups leave the tree alone *)

(** C9.  [search] returns its result and the state it was given;
    [printCourseInformation] only writes to [cout], so the tree after it is
    the tree before it, and for a course number that is not found the text
    written is the not-found message. *)
Theorem lookup_does_not_mutate w targetNumber :
  snd (search targetNumber w) = w
  /\ courseTree (snd (printCourseInformation targetNumber w)) = courseTree w
  /\ (fst (search (toUpper targetNumber) w) = None ->
      printCourseInformation targetNumber w =
        (tt, mkWorld (courseTree w)
               (cout w ++ "Course " ++ toUpper targetNumber ++ " not found." ++ nl))).
Proof.
  split; [reflexivity|]. rewrite printCourseInformation_run. split; [reflexivity|].
  unfold search. cbn [fst]. intros ->. reflexivity.
Qed.

Lemma lookup_does_not_mutate_witness :
  printCourseInformation "cs999" (loadedFrom "CS101,Intro") =
  (tt, mkWorld (courseTree (loadedFrom "CS101,Intro"))
         (cout (loadedFrom "CS101,Intro") ++
          "Course " ++ toUpper "cs999" ++ " not found." ++ nl)).
Proof.
  apply (lookup_does_not_mutate (loadedFrom "CS101,Intro") "cs999").
  reflexivity.
Defined.

(** ** Order of the listing *)

(** C4.  Take courses with pairwise distinct numbers and insert them, in
    any order, into the empty tree.  The courses that the in-order
    traversal visits are exactly the given courses, their numbers strictly
    ascending in the order of [std::string]; the traversal prints one line
    per course in that order, and every order of insertion gives the same
    sequence. *)
Theorem listing_ascending_for_every_insertion_order (cs cs' : list Course) out :
  NoDup (map courseNumber cs) ->
  Permutation cs cs' ->
  let w := snd (forEach cs' insert (mkWorld (mkCourseBST nullptr) out)) in
  let visited := inOrder (root (courseTree w)) in
  strictly_ascending (map courseNumber visited)
  /\ Permutation visited cs
  /\ inOrderHelper (root (courseTree w)) w =
       (tt, mkWorld (courseTree w) (cout w ++ listing visited))
  /\ visited =
       inOrder (root (courseTree
                  (snd (forEach cs insert (mkWorld (mkCourseBST nullptr) out))))).
Proof.
  intros Hnd Hperm w visited. subst w visited.
  rewrite !forEach_insert. cbn [snd courseTree root cout].
  assert (Hnd' : NoDup (map courseNumber cs'))
    by (eapply Permutation_NoDup; [apply Permutation_map; exact Hperm|exact Hnd]).
  assert (Hs : forall l, strictly_ascending
                 (map courseNumber (inOrder (fold_left insertHelper l nullptr)))).
  { intros l. apply bst_strictly_ascending, fold_insertHelper_bst. exact I. }
  assert (Hp : forall l, NoDup (map courseNumber l) ->
                 Permutation (inOrder (fold_left insertHelper l nullptr)) l).
  { intros l Hl. apply (fold_insertHelper_fresh l nullptr Hl). intros c _ []. }
  repeat split.
  - apply Hs.
  - rewrite (Hp cs' Hnd'). now apply Permutation_sym.
  - apply inOrderHelper_run.
  - apply ascending_perm_unique; try apply Hs.
    rewrite (Hp cs' Hnd'), (Hp cs Hnd). now apply Permutation_sym.
Qed.

Lemma listing_ascending_for_every_insertion_order_witness :
  let a := mkCourse "CSCI100" "Introduction to Computer Science" [] in
  let b := mkCourse "CSCI200" "Data Structures" ["CSCI100"] in
  let c := mkCourse "MATH201" "Discrete Mathematics" [] in
  strictly_ascending
    (map courseNumber
       (inOrder (root (courseTree
          (snd (forEach [c; a; b] insert (mkWorld (mkCourseBST nullptr) ""))))))).
Proof.
  intros a b c.
  refine (proj1 (listing_ascending_for_every_insertion_order [a; b; c] [c; a; b] "" _ _)).
  - repeat constructor; simpl; intuition discriminate.
  - apply Permutation_sym. apply (Permutation_cons_append [a; b] c).
Defined.

(** ** Inserting a course number twice *)

(** C5.  In a tree the program can hold, inserting a course whose number is
    already there keeps the number of entries, every node of the tree and
    the sequence of course numbers, which has no duplicate; the entry with
    that number, and no other, now carries the new title and prerequisites,
    at the place where it stood; a search for the number returns the new
    data. *)
Theorem upsert_replaces_in_place w c :
  reachable (root (courseTree w)) ->
  In (courseNumber c) (keys (root (courseTree w))) ->
  let w' := snd (insert c w) in
  size (root (courseTree w')) = size (root (courseTree w))
  /\ root (courseTree w') = mapCourses (replaceCourse c) (root (courseTree w))
  /\ inOrder (root (courseTree w')) = map (replaceCourse c) (inOrder (root (courseTree w)))
  /\ keys (root (courseTree w')) = keys (root (courseTree w))
  /\ NoDup (keys (root (courseTree w')))
  /\ fst (search (courseNumber c) w') = Some c
  /\ cout w' = cout w.
Proof.
  intros Hr Hin w'. subst w'. unfold insert, search. cbn [snd fst courseTree root cout].
  pose proof (reachable_bst _ Hr) as Hb.
  repeat split.
  - now apply size_insertHelper_present.
  - now apply insertHelper_present.
  - now apply inOrder_insertHelper_present.
  - now apply keys_insertHelper_present.
  - apply strictly_ascending_NoDup, bst_strictly_ascending.
    now apply bst_insertHelper.
  - apply searchHelper_insertHelper_same.
Qed.

Lemma upsert_replaces_in_place_witness :
  let w := loadedFrom ("CS200,Data,CS101" ++ nl ++ "CS101,Intro") in
  let c := mkCourse "CS101" "Introduction to Programming" ["MATH100"] in
  size (root (courseTree (snd (insert c w)))) = size (root (courseTree w)).
Proof.
  intros w c.
  refine (proj1 (upsert_replaces_in_place w c _ _)).
  - apply (reachable_insert _ (mkCourse "CS101" "Intro" [])).
    apply (reachable_insert _ (mkCourse "CS200" "Data" ["CS101"])).
    apply reachable_empty.
  - vm_compute. auto.
Defined.

(** ** Lines with a missing field *)

Section Lines.

Lemma getline_chars_line line rest delimiter :
  Str.mem delimiter line = false ->
  getline_chars (line ++ String delimiter rest) delimiter = (line, rest).
Proof.
  induction line as [|c line IH]; simpl.
  - now rewrite Ascii.eqb_refl.
  - rewrite (Ascii.eqb_sym c delimiter).
    destruct (Ascii.eqb delimiter c); simpl; [discriminate|].
    intros H. now rewrite (IH H).
Qed.

(** A line and its newline at the head of a file are one turn of the loop
    of the loader. *)
Lemma readLines_line line rest lineNumber w :
  Str.mem "010"%char line = false ->
  readLines (S (String.length (line ++ nl ++ rest))) (line ++ nl ++ rest) lineNumber w =
  (loadLine (Str.int_wrap (lineNumber + 1)) line ;;
   readLines (S (String.length rest)) rest (Str.int_wrap (lineNumber + 1))) w.
Proof.
  intros H.
  assert (E : getline (line ++ nl ++ rest) "010"%char = Some (line, rest)).
  { pose proof (getline_chars_line line rest "010"%char H) as G.
    unfold getline. change (nl ++ rest) with (String "010"%char rest).
    destruct (line ++ String "010"%char rest) eqn:A; [|now rewrite <- G].
    destruct line; discriminate. }
  rewrite !readLines_loadLines by lia. unfold fileLines.
  rewrite (split_cons _ _ _ _ E). reflexivity.
Qed.

Lemma diagnostics_differ lineNumber line :
  missingFieldWarning lineNumber <> formatError lineNumber line.
Proof. unfold missingFieldWarning, formatError. simpl. discriminate. Qed.

End Lines.

(** C3, as the program behaves.  A line that is not blank, that [split]
    cuts into at least two tokens and whose first or second token is empty
    after trimming (such as "CS101, " or ",Intro") gets the warning
    "missing course number or title", which differs from the "fewer than
    two fields" error; the tree is not touched and the loop goes on with
    the rest of the file.  The number in the warning is the count of lines
    read, as long as that count fits an [int]. *)
Theorem missing_field_is_warned_and_skipped lineNumber line w :
  Str.empty (trim line) = false ->
  2 <= List.length (split line ","%char) ->
  trim (nth 0 (split line ","%char) "") = "" \/
  trim (nth 1 (split line ","%char) "") = "" ->
  loadLine lineNumber line w =
    (tt, mkWorld (courseTree w) (cout w ++ missingFieldWarning lineNumber))
  /\ missingFieldWarning lineNumber <> formatError lineNumber line
  /\ (forall rest n,
        (0 <= n < Str.INT_MAX)%Z ->
        Str.mem "010"%char line = false ->
        readLines (S (String.length (line ++ nl ++ rest))) (line ++ nl ++ rest) n w =
        readLines (S (String.length rest)) rest (n + 1)
          (mkWorld (courseTree w) (cout w ++ missingFieldWarning (n + 1)))).
Proof.
  intros Hblank Hlen Hempty.
  assert (Hc : classify line = MissingField).
  { unfold classify. rewrite Hblank. cbv zeta.
    rewrite (proj2 (Nat.ltb_ge _ _) Hlen).
    unfold courseOfTokens. cbn [courseNumber courseTitle].
    destruct Hempty as [-> | ->]; simpl; [reflexivity|].
    now rewrite andb_false_r. }
  assert (Hl : forall k, loadLine k line w =
             (tt, mkWorld (courseTree w) (cout w ++ missingFieldWarning k)))
    by (intros k; now rewrite loadLine_classify, Hc).
  repeat split.
  - apply Hl.
  - apply diagnostics_differ.
  - intros rest n Hn Hnl. rewrite (readLines_line _ _ _ _ Hnl).
    rewrite int_wrap_small by (unfold Str.INT_MAX in *; lia).
    unfold bind. now rewrite Hl.
Qed.

Lemma missing_field_is_warned_and_skipped_witness :
  loadLine 3 "CS101, " initialWorld =
  (tt, mkWorld (courseTree initialWorld) (cout initialWorld ++ missingFieldWarning 3)).
Proof.
  refine (proj1 (missing_field_is_warned_and_skipped 3 "CS101, " initialWorld _ _ _)).
  - reflexivity.
  - vm_compute. lia.
  - right. reflexivity.
Defined.

(** C3 fails as the specification states it, on its own example: the
    line "CS101," has the fields "CS101" and "", but [split] yields the
    single token "CS101" for it, so the loader reports "fewer than two
    fields" and not the missing-field warning. *)
Lemma empty_title_line_is_format_error :
  spec_fields "CS101," ","%char = ["CS101"; ""] /\
  split "CS101," ","%char = ["CS101"] /\
  loadLine 1 "CS101," initialWorld =
    (tt, mkWorld (mkCourseBST nullptr) (formatError 1 "CS101,")) /\
  loadLine 1 "CS101," initialWorld <>
    (tt, mkWorld (mkCourseBST nullptr) (missingFieldWarning 1)).
Proof.
  vm_compute. repeat split; discriminate.
Qed.

(** ** Prerequisites of a line *)

(** C7.  The prerequisites of the course built from the tokens of a line
    are the tokens after the first two, trimmed, without those that are
    empty after trimming, in their order; these are the same whether the
    fields are the tokens of [split] or the comma-separated fields of the
    line; a stored prerequisite is not empty and neither starts nor ends
    with whitespace; a line that is accepted stores the course with these
    prerequisites; the line "CS101,Intro,CS100," stores CS101 with the
    single prerequisite CS100. *)
Theorem prerequisites_are_trimmed_nonempty_fields :
  (forall tokens,
     prerequisites (courseOfTokens tokens) =
     filter nonEmpty (map trim (skipn 2 tokens)))
  /\ (forall line,
        filter nonEmpty (map trim (skipn 2 (split line ","%char))) =
        filter nonEmpty (map trim (skipn 2 (spec_fields line ","%char))))
  /\ (forall tokens p,
        Forall (fun t => (Z.of_nat (String.length t) < Str.npos)%Z) tokens ->
        In p (prerequisites (courseOfTokens tokens)) ->
        exists c r d,
          p = String c r /\ Str.mem c whitespace = false /\
          lastChar p = Some d /\ Str.mem d whitespace = false)
  /\ (forall lineNumber line w,
        Str.empty (trim line) = false ->
        2 <= List.length (split line ","%char) ->
        trim (nth 0 (split line ","%char) "") <> "" ->
        trim (nth 1 (split line ","%char) "") <> "" ->
        fst (search (trim (nth 0 (split line ","%char) ""))
               (snd (loadLine lineNumber line w))) =
        Some (mkCourse (trim (nth 0 (split line ","%char) ""))
                       (trim (nth 1 (split line ","%char) ""))
                       (filter nonEmpty (map trim (skipn 2 (split line ","%char))))))
  /\ (forall lineNumber w,
        fst (search "CS101" (snd (loadLine lineNumber "CS101,Intro,CS100," w))) =
        Some (mkCourse "CS101" "Intro" ["CS100"])).
Proof.
  assert (Hgen : forall lineNumber line w,
        Str.empty (trim line) = false ->
        2 <= List.length (split line ","%char) ->
        trim (nth 0 (split line ","%char) "") <> "" ->
        trim (nth 1 (split line ","%char) "") <> "" ->
        fst (search (trim (nth 0 (split line ","%char) ""))
               (snd (loadLine lineNumber line w))) =
        Some (mkCourse (trim (nth 0 (split line ","%char) ""))
                       (trim (nth 1 (split line ","%char) ""))
                       (filter nonEmpty (map trim (skipn 2 (split line ","%char)))))).
  { intros n line w Hblank Hlen H0 H1.
    assert (Hc : classify line = Accepted (courseOfTokens (split line ","%char))).
    { unfold classify. rewrite Hblank. cbv zeta.
      rewrite (proj2 (Nat.ltb_ge _ _) Hlen).
      unfold courseOfTokens at 1 2. cbn [courseNumber courseTitle].
      destruct (trim (nth 0 (split line ","%char) "")); [congruence|].
      destruct (trim (nth 1 (split line ","%char) "")); [congruence|].
      reflexivity. }
    rewrite loadLine_classify, Hc. unfold search. cbn [fst snd courseTree root].
    rewrite <- prerequisites_courseOfTokens.
    apply (searchHelper_insertHelper_same (root (courseTree w))
             (courseOfTokens (split line ","%char))). }
  split; [exact prerequisites_courseOfTokens|].
  split; [intros line; rewrite split_spec_fields; apply filter_trim_dropLastEmpty|].
  split.
  { intros tokens p Hlen Hin. rewrite prerequisites_courseOfTokens in Hin.
    apply filter_In in Hin. destruct Hin as (Hin & Hne).
    apply in_map_iff in Hin. destruct Hin as (t & <- & Hin).
    assert (Ht : In t tokens).
    { rewrite <- (firstn_skipn 2 tokens). apply in_or_app. now right. }
    rewrite Forall_forall in Hlen. specialize (Hlen t Ht).
    destruct (trim t) as [|c r] eqn:E; [discriminate|].
    destruct (trim_edges t c r Hlen E) as (Hc & d & Hd & Hm).
    exists c, r, d. rewrite <- E. rewrite E at 1. auto. }
  split; [exact Hgen|].
  intros n w.
  apply (Hgen n "CS101,Intro,CS100," w); vm_compute; (reflexivity || lia || discriminate).
Qed.

Lemma prerequisites_are_trimmed_nonempty_fields_witness :
  fst (search "CSCI300"
         (snd (loadLine 1 " CSCI300 , Algorithms ,CSCI200, , MATH201 ,"
                 initialWorld))) =
  Some (mkCourse "CSCI300" "Algorithms" ["CSCI200"; "MATH201"]).
Proof.
  apply (proj1 (proj2 (proj2 (proj2 prerequisites_are_trimmed_nonempty_fields))) 1%Z
           " CSCI300 , Algorithms ,CSCI200, , MATH201 ," initialWorld);
    vm_compute; (reflexivity || lia || discriminate).
Defined.

(** ** Letter case of course numbers *)

(** C2, as the program behaves.  [printCourseInformation] searches for the
    upper-case form of the number it is given, so two spellings with the
    same upper-case form are described alike; the loader stores course
    numbers as they stand in the file.  Hence a loaded course whose number
    has no lower-case letter is found under every casing of its number. *)
Theorem describe_finds_uppercase_numbers_in_any_casing
    fs fileName content w targetNumber c :
  fs fileName = Some content ->
  In c (inOrder (root (courseTree (snd (loadCoursesFromFile fs fileName w))))) ->
  toUpper (courseNumber c) = courseNumber c ->
  toUpper targetNumber = toUpper (courseNumber c) ->
  let w1 := snd (loadCoursesFromFile fs fileName w) in
  fst (search (toUpper targetNumber) w1) = Some c
  /\ printCourseInformation targetNumber w1 =
       (tt, mkWorld (courseTree w1) (cout w1 ++ description (root (courseTree w1)) c))
  /\ (forall other, toUpper other = toUpper targetNumber ->
        printCourseInformation other w1 = printCourseInformation targetNumber w1).
Proof.
  intros E Hin Hup Hq w1. subst w1.
  rewrite (loadCoursesFromFile_open _ _ _ _ E) in *. cbn [snd courseTree root] in *.
  assert (Hs : searchHelper
                 (fold_left insertHelper (lineCourses (fileLines content)) nullptr)
                 (toUpper targetNumber) = Some c).
  { rewrite Hq, Hup. apply searchHelper_complete; [|assumption].
    apply reachable_bst, loaded_reachable. }
  repeat split.
  - exact Hs.
  - rewrite printCourseInformation_run. cbn [courseTree root cout]. now rewrite Hs.
  - intros other Ho. rewrite !printCourseInformation_run.
    unfold notFoundMessage. now rewrite Ho.
Qed.

Lemma describe_finds_uppercase_numbers_in_any_casing_witness :
  fst (search (toUpper "cs101")
         (snd (loadCoursesFromFile (oneFile "courses.csv" "CS101,Intro")
                 "courses.csv" initialWorld))) =
  Some (mkCourse "CS101" "Intro" []).
Proof.
  refine (proj1 (describe_finds_uppercase_numbers_in_any_casing
                   (oneFile "courses.csv" "CS101,Intro") "courses.csv" "CS101,Intro"
                   initialWorld "cs101" (mkCourse "CS101" "Intro" []) _ _ _ _)).
  - reflexivity.
  - vm_compute. auto.
  - reflexivity.
  - reflexivity.
Defined.

(** C2 fails as the specification states it: a file may spell a course
    number in lower case; the course is stored under that spelling, and
    describing it, under the spelling of the file or in upper case,
    searches for "CS101" and does not find it. *)
Lemma lowercase_course_not_found :
  let w := loadedFrom "cs101,Intro" in
  In (mkCourse "cs101" "Intro" []) (inOrder (root (courseTree w))) /\
  fst (search (toUpper "cs101") w) = None /\
  printCourseInformation "cs101" w =
    (tt, mkWorld (courseTree w) (cout w ++ "Course CS101 not found." ++ nl)) /\
  printCourseInformation "CS101" w =
    (tt, mkWorld (courseTree w) (cout w ++ "Course CS101 not found." ++ nl)).
Proof.
  vm_compute. repeat split; auto.
Qed.

(** ** The description of a course *)

Section Description.

Lemma prerequisiteLines_app nd xs ys :
  prerequisiteLines nd (xs ++ ys) =
  prerequisiteLines nd xs ++ prerequisiteLines nd ys.
Proof.
  induction xs as [|x xs IH]; simpl; [reflexivity|].
  now rewrite IH, append_assoc.
Qed.

End Description.

(** C8, as the program behaves.  For a course that is found the program
    writes its number and title, then "Prerequisites: None" when it has no
    prerequisite, otherwise "Prerequisites:" and one line per prerequisite,
    in order, each line depending on that prerequisite alone: the
    prerequisite is put in upper case and searched for; when a course is
    found its number and title are written, otherwise the upper-case
    identifier followed by " (course not found in data)". *)
Theorem description_of_found_course w targetNumber c :
  fst (search (toUpper targetNumber) w) = Some c ->
  let nd := root (courseTree w) in
  printCourseInformation targetNumber w =
    (tt, mkWorld (courseTree w)
           (cout w ++ nl ++ courseNumber c ++ ", " ++ courseTitle c ++ nl ++
            match prerequisites c with
            | [] => "Prerequisites: None" ++ nl
            | _ :: _ => "Prerequisites:" ++ nl ++ prerequisiteLines nd (prerequisites c)
            end))
  /\ (forall before p after,
        prerequisites c = (before ++ p :: after)%list ->
        prerequisiteLines nd (prerequisites c) =
        prerequisiteLines nd before ++ prerequisiteLine nd p ++
        prerequisiteLines nd after)
  /\ (forall p pc,
        fst (search (toUpper p) w) = Some pc ->
        prerequisiteLine nd p =
        "  " ++ courseNumber pc ++ ", " ++ courseTitle pc ++ nl)
  /\ (forall p,
        fst (search (toUpper p) w) = None ->
        prerequisiteLine nd p =
        "  " ++ toUpper p ++ " (course not found in data)" ++ nl).
Proof.
  unfold search. cbn [fst]. cbv zeta. intros Hs. repeat split.
  - rewrite printCourseInformation_run, Hs. reflexivity.
  - intros before p after ->. now rewrite prerequisiteLines_app.
  - intros p pc Hp. unfold prerequisiteLine. now rewrite Hp.
  - intros p Hp. unfold prerequisiteLine. now rewrite Hp.
Qed.

Lemma description_of_found_course_witness :
  let w := loadedFrom ("CS100,Intro" ++ nl ++ "CS200,Data,CS100,CS999") in
  printCourseInformation "cs200" w =
  (tt, mkWorld (courseTree w)
         (cout w ++ nl ++ "CS200, Data" ++ nl ++ "Prerequisites:" ++ nl ++
          "  CS100, Intro" ++ nl ++ "  CS999 (course not found in data)" ++ nl)).
Proof.
  intros w.
  exact (proj1 (description_of_found_course w "cs200"
                  (mkCourse "CS200" "Data" ["CS100"; "CS999"]) Logic.eq_refl)).
Defined.

(** C8 fails as the specification states it: a prerequisite spelled in
    lower case that is in the tree under that spelling is searched for in
    upper case, not found, and printed as not found in the data. *)
Lemma present_prerequisite_reported_missing :
  let w := loadedFrom ("cs100,Intro" ++ nl ++ "CS200,Data,cs100") in
  fst (search "CS200" w) = Some (mkCourse "CS200" "Data" ["cs100"]) /\
  fst (search "cs100" w) = Some (mkCourse "cs100" "Intro" []) /\
  printCourseInformation "CS200" w =
    (tt, mkWorld (courseTree w)
           (cout w ++ nl ++ "CS200, Data" ++ nl ++ "Prerequisites:" ++ nl ++
            "  CS100 (course not found in data)" ++ nl)).
Proof.
  vm_compute. repeat split.
Qed.

(** * Further properties of the program *)

(** ** The store as a map from course numbers to courses *)

Section StoreAsMap.

Lemma In_inOrder_insertHelper nd c x :
  In x (inOrder (insertHelper nd c)) -> x = c \/ In x (inOrder nd).
Proof.
  induction nd as [|d l IHl r IHr]; simpl.
  - intros [<-|[]]. now left.
  - destruct (Str.lt (courseNumber c) (courseNumber d)) eqn:E1.
    + simpl. rewrite !in_app_iff. simpl. tauto.
    + rewrite gt_lt. destruct (Str.lt (courseNumber d) (courseNumber c)) eqn:E2.
      * simpl. rewrite !in_app_iff. simpl. tauto.
      * simpl. rewrite !in_app_iff. simpl. intros [H|[H|H]]; try tauto.
        left. rewrite <- H, <- (lt_total _ _ E1 E2). now destruct c.
Qed.

Lemma In_inOrder_fold cs : forall nd x,
  In x (inOrder (fold_left insertHelper cs nd)) -> In x cs \/ In x (inOrder nd).
Proof.
  induction cs as [|c cs IH]; simpl; intros nd x H; [now right|].
  destruct (IH _ _ H) as [H1|H1]; [tauto|].
  destruct (In_inOrder_insertHelper _ _ _ H1) as [->|H2]; tauto.
Qed.

Lemma searchHelper_insertHelper nd c k :
  searchHelper (insertHelper nd c) k =
  if Str.eq k (courseNumber c) then Some c else searchHelper nd k.
Proof.
  destruct (Str.eq k (courseNumber c)) eqn:E.
  - apply eq_true_iff in E. subst k. apply searchHelper_insertHelper_same.
  - apply eq_false_iff in E. now apply searchHelper_insertHelper_other.
Qed.

Lemma find_append {A : Type} (f : A -> bool) (xs ys : list A) :
  find f (xs ++ ys) =
  match find f xs with
  | Some x => Some x
  | None => find f ys
  end.
Proof.
  induction xs as [|x xs IH]; simpl; [reflexivity|].
  now destruct (f x).
Qed.

Lemma searchHelper_fold cs : forall nd k,
  searchHelper (fold_left insertHelper cs nd) k =
  match lastCourse k cs with
  | Some c => Some c
  | None => searchHelper nd k
  end.
Proof.
  unfold lastCourse.
  induction cs as [|c cs IH]; intros nd k; [reflexivity|].
  cbn [fold_left rev]. rewrite IH, searchHelper_insertHelper.
  rewrite find_append.
  destruct (find (fun c0 => Str.eq k (courseNumber c0)) (rev cs)); [reflexivity|].
  cbn [find]. now destruct (Str.eq k (courseNumber c)).
Qed.

(** Two search trees that answer every search alike list the same courses
    in the same order. *)
Lemma bst_search_ext t1 t2 :
  bst t1 -> bst t2 ->
  (forall k, searchHelper t1 k = searchHelper t2 k) ->
  inOrder t1 = inOrder t2.
Proof.
  intros B1 B2 Hs.
  assert (Hin : forall t t', bst t -> bst t' ->
            (forall k, searchHelper t k = searchHelper t' k) ->
            forall c, In c (inOrder t) -> In c (inOrder t')).
  { intros t t' Bt Bt' H c Hc.
    pose proof (searchHelper_complete t c Bt Hc) as S1.
    rewrite H in S1. now apply searchHelper_Some in S1. }
  assert (Hnd : forall t, bst t -> NoDup (inOrder t)).
  { intros t Bt. apply (NoDup_map_inv courseNumber).
    apply strictly_ascending_NoDup. now apply bst_strictly_ascending. }
  apply ascending_perm_unique; try (now apply bst_strictly_ascending).
  apply NoDup_Permutation; auto.
  intros c. split; apply Hin; auto.
Qed.

Lemma insertHelper_idempotent nd c :
  insertHelper (insertHelper nd c) c = insertHelper nd c.
Proof.
  induction nd as [|d l IHl r IHr]; simpl.
  - rewrite lt_irrefl, gt_lt, lt_irrefl. now destruct c.
  - destruct (Str.lt (courseNumber c) (courseNumber d)) eqn:E1.
    + simpl. now rewrite E1, IHl.
    + rewrite gt_lt. destruct (Str.lt (courseNumber d) (courseNumber c)) eqn:E2.
      * simpl. now rewrite E1, gt_lt, E2, IHr.
      * simpl. now rewrite E1, gt_lt, E2.
Qed.

Lemma inOrder_node_not_nil c l r : inOrder (node c l r) <> [].
Proof. simpl. now destruct (inOrder l). Qed.

(** What [printInOrder] writes is determined by the visit sequence. *)
Lemma printInOrder_same_listing w1 w2 :
  inOrder (root (courseTree w1)) = inOrder (root (courseTree w2)) ->
  cout w1 = cout w2 ->
  cout (snd (printInOrder w1)) = cout (snd (printInOrder w2)).
Proof.
  intros Hio Hc. rewrite !printInOrder_run. cbn [snd cout]. rewrite Hc. f_equal.
  destruct (root (courseTree w1)) as [|c1 l1 r1] eqn:T1;
    destruct (root (courseTree w2)) as [|c2 l2 r2] eqn:T2.
  - reflexivity.
  - symmetry in Hio. now apply inOrder_node_not_nil in Hio.
  - now apply inOrder_node_not_nil in Hio.
  - now rewrite Hio.
Qed.

End StoreAsMap.

(** X1.  Insert, then look up: right after [insert] a [search] for the
    number of the inserted course returns that course, whatever the tree
    held, and a [search] for any other number returns what it returned
    before; [insert] writes nothing to [cout]. *)
Theorem insert_then_search w c :
  fst (search (courseNumber c) (snd (insert c w))) = Some c
  /\ (forall k, k <> courseNumber c ->
        fst (search k (snd (insert c w))) = fst (search k w))
  /\ cout (snd (insert c w)) = cout w.
Proof.
  unfold insert, search. cbn [fst snd courseTree root cout]. repeat split.
  - apply searchHelper_insertHelper_same.
  - intros k Hk. now apply searchHelper_insertHelper_other.
Qed.

(** X2.  In a tree the program can hold, [search] answers by the contents:
    it returns a course exactly when that course is in the tree under the
    number asked for, and it returns nothing exactly when no course of the
    tree has that number. *)
Theorem search_agrees_with_contents w :
  reachable (root (courseTree w)) ->
  (forall k c, fst (search k w) = Some c <->
               In c (inOrder (root (courseTree w))) /\ courseNumber c = k)
  /\ (forall k, fst (search k w) = None <-> ~ In k (keys (root (courseTree w)))).
Proof.
  intros Hr. pose proof (reachable_bst _ Hr) as Hb.
  unfold search. cbn [fst]. split.
  - intros k c. split.
    + apply searchHelper_Some.
    + intros (Hin & <-). now apply searchHelper_complete.
  - intros k. split.
    + intros Hs. now apply searchHelper_None.
    + intros Hnin.
      destruct (searchHelper (root (courseTree w)) k) as [c|] eqn:E; [|reflexivity].
      apply searchHelper_Some in E. destruct E as (Hin & <-).
      exfalso. apply Hnin. unfold keys. now apply in_map.
Qed.

Lemma search_agrees_with_contents_witness :
  fst (search "CS999" (loadedFrom "CS101,Intro")) = None <->
  ~ In "CS999" (keys (root (courseTree (loadedFrom "CS101,Intro")))).
Proof.
  apply (search_agrees_with_contents (loadedFrom "CS101,Intro")).
  apply (reachable_insert _ (mkCourse "CS101" "Intro" [])), reachable_empty.
Defined.

(** X3.  Whatever courses are inserted, in whatever order and with whatever
    repetitions, the tree is a search tree: the course numbers in visiting
    order are strictly ascending, so no number occurs twice, and the tree
    holds at most one node per insertion. *)
Theorem store_keys_unique_and_ascending (cs : list Course) out :
  let w := snd (forEach cs insert (mkWorld (mkCourseBST nullptr) out)) in
  bst (root (courseTree w))
  /\ strictly_ascending (keys (root (courseTree w)))
  /\ NoDup (keys (root (courseTree w)))
  /\ size (root (courseTree w)) <= List.length cs
  /\ (forall c, In c (inOrder (root (courseTree w))) -> In c cs).
Proof.
  cbv zeta. rewrite forEach_insert. cbn [snd courseTree root].
  assert (Hb : bst (fold_left insertHelper cs nullptr))
    by (apply fold_insertHelper_bst; exact I).
  assert (Hin : forall c, In c (inOrder (fold_left insertHelper cs nullptr)) -> In c cs).
  { intros c Hc. destruct (In_inOrder_fold _ _ _ Hc) as [H|[]]. exact H. }
  repeat split; auto.
  - now apply bst_strictly_ascending.
  - now apply strictly_ascending_NoDup, bst_strictly_ascending.
  - rewrite <- size_inOrder.
    rewrite <- (length_map courseNumber (inOrder _)), <- (length_map courseNumber cs).
    apply NoDup_incl_length.
    + now apply strictly_ascending_NoDup, bst_strictly_ascending.
    + intros k Hk. apply in_map_iff in Hk. destruct Hk as (c & <- & Hc).
      apply in_map. now apply Hin.
Qed.

(** X4.  In a tree the program can hold, inserting a course whose number a
    [search] does not find adds exactly one entry: the size grows by one
    and the visit sequence is the old one with the new course put in. *)
Theorem insert_missing_number_adds_one_entry w c :
  reachable (root (courseTree w)) ->
  fst (search (courseNumber c) w) = None ->
  size (root (courseTree (snd (insert c w)))) = S (size (root (courseTree w)))
  /\ Permutation (inOrder (root (courseTree (snd (insert c w)))))
                 (c :: inOrder (root (courseTree w))).
Proof.
  intros Hr Hs. unfold search in Hs. cbn [fst] in Hs.
  pose proof (searchHelper_None _ _ Hs (reachable_bst _ Hr)) as Hnin.
  unfold insert. cbn [snd courseTree root].
  pose proof (inOrder_insertHelper_fresh _ _ Hnin) as Hp.
  split; [|exact Hp].
  rewrite <- !size_inOrder. now rewrite (Permutation_length Hp).
Qed.

Lemma insert_missing_number_adds_one_entry_witness :
  size (root (courseTree (snd (insert (mkCourse "CS200" "Data" ["CS101"])
                                 (loadedFrom "CS101,Intro"))))) =
  S (size (root (courseTree (loadedFrom "CS101,Intro")))).
Proof.
  refine (proj1 (insert_missing_number_adds_one_entry (loadedFrom "CS101,Intro")
                   (mkCourse "CS200" "Data" ["CS101"]) _ _)).
  - apply (reachable_insert _ (mkCourse "CS101" "Intro" [])), reachable_empty.
  - reflexivity.
Defined.

(** X5.  After a sequence of insertions into the empty tree, a [search]
    for a number returns the last course of the sequence with that number,
    and nothing when the sequence has none: a later insertion overrides
    an earlier one with the same number. *)
Theorem last_insertion_wins (cs : list Course) out k :
  fst (search k (snd (forEach cs insert (mkWorld (mkCourseBST nullptr) out)))) =
  lastCourse k cs.
Proof.
  rewrite forEach_insert. unfold search. cbn [fst snd courseTree root].
  rewrite searchHelper_fold. now destruct (lastCourse k cs).
Qed.

(** X6.  Inserting the same course twice in a row is the same as inserting
    it once, for every tree. *)
Theorem insert_twice_is_insert_once w c :
  snd (insert c (snd (insert c w))) = snd (insert c w).
Proof.
  unfold insert. cbn [snd courseTree root cout].
  now rewrite insertHelper_idempotent.
Qed.

(** X7.  In a tree the program can hold, two insertions of courses with
    different numbers can be swapped without changing what any [search]
    returns or what the listing shows. *)
Theorem insertions_of_different_numbers_commute w a b :
  reachable (root (courseTree w)) ->
  courseNumber a <> courseNumber b ->
  let wab := snd (insert b (snd (insert a w))) in
  let wba := snd (insert a (snd (insert b w))) in
  (forall k, fst (search k wab) = fst (search k wba))
  /\ inOrder (root (courseTree wab)) = inOrder (root (courseTree wba))
  /\ cout (snd (printInOrder wab)) = cout (snd (printInOrder wba)).
Proof.
  intros Hr Hab. cbv zeta. unfold insert, search.
  cbn [fst snd courseTree root cout].
  assert (Hs : forall k,
    searchHelper (insertHelper (insertHelper (root (courseTree w)) a) b) k =
    searchHelper (insertHelper (insertHelper (root (courseTree w)) b) a) k).
  { intros k. rewrite !searchHelper_insertHelper.
    destruct (Str.eq k (courseNumber b)) eqn:Eb;
      destruct (Str.eq k (courseNumber a)) eqn:Ea; try reflexivity.
    apply eq_true_iff in Ea, Eb. congruence. }
  assert (Hio : inOrder (insertHelper (insertHelper (root (courseTree w)) a) b) =
                inOrder (insertHelper (insertHelper (root (courseTree w)) b) a)).
  { apply bst_search_ext; auto;
      repeat apply bst_insertHelper; now apply reachable_bst. }
  repeat split; auto.
  now apply printInOrder_same_listing.
Qed.

(** ** Depth of the tree *)

Section Depth.

Lemma height_le_size nd : height nd <= size nd.
Proof. induction nd as [|c l IHl r IHr]; simpl; lia. Qed.

Lemma insertHelper_rightSpine nd c :
  rightSpine nd ->
  Forall (fun k => Str.lt k (courseNumber c) = true) (keys nd) ->
  rightSpine (insertHelper nd c)
  /\ height (insertHelper nd c) = S (height nd)
  /\ keys (insertHelper nd c) = (keys nd ++ [courseNumber c])%list.
Proof.
  unfold keys. induction nd as [|d l IHl r IHr]; simpl.
  - intros _ _. repeat split.
  - intros (-> & Hr) Hk. simpl in Hk. inversion Hk as [|? ? Hd Hks]; subst.
    rewrite (lt_asym _ _ Hd), gt_lt, Hd. simpl.
    destruct (IHr Hr Hks) as (S1 & S2 & S3).
    repeat split; [assumption|lia|]. now rewrite S3.
Qed.

Lemma strictly_ascending_app_cons ks k ls :
  strictly_ascending (ks ++ k :: ls) ->
  Forall (fun x => Str.lt x k = true) ks.
Proof.
  unfold strictly_ascending. induction ks as [|x ks IH]; simpl; intros H.
  - constructor.
  - inversion H as [|? ? Hs Hf]; subst. constructor; [|now apply IH].
    rewrite Forall_forall in Hf. apply Hf. apply in_or_app. right. now left.
Qed.

Lemma fold_insertHelper_rightSpine cs : forall nd,
  rightSpine nd ->
  strictly_ascending (keys nd ++ map courseNumber cs) ->
  rightSpine (fold_left insertHelper cs nd)
  /\ height (fold_left insertHelper cs nd) = height nd + List.length cs.
Proof.
  induction cs as [|c cs IH]; simpl; intros nd Hs Ha.
  - split; [assumption|lia].
  - destruct (insertHelper_rightSpine nd c Hs (strictly_ascending_app_cons _ _ _ Ha))
      as (S1 & S2 & S3).
    destruct (IH (insertHelper nd c) S1) as (R1 & R2).
    + rewrite S3, <- app_assoc. exact Ha.
    + split; [assumption|]. rewrite R2, S2. lia.
Qed.

End Depth.

(** X8.  The tree is not balanced: courses inserted in ascending order of
    their numbers form a chain of right children, so the depth of the
    tree, which is the depth of the recursion of the helpers, equals the
    number of courses.  In every tree the depth is at most the size. *)
Theorem ascending_insertions_give_a_chain (cs : list Course) out :
  strictly_ascending (map courseNumber cs) ->
  let nd := root (courseTree (snd (forEach cs insert (mkWorld (mkCourseBST nullptr) out)))) in
  rightSpine nd
  /\ height nd = List.length cs
  /\ size nd = List.length cs
  /\ (forall nd', height nd' <= size nd').
Proof.
  intros Ha. cbv zeta. rewrite forEach_insert. cbn [snd courseTree root].
  destruct (fold_insertHelper_rightSpine cs nullptr I Ha) as (R1 & R2).
  repeat split; auto using height_le_size.
  rewrite <- size_inOrder.
  assert (Hp : Permutation (inOrder (fold_left insertHelper cs nullptr)) cs).
  { apply (fold_insertHelper_fresh cs nullptr).
    - now apply strictly_ascending_NoDup.
    - intros c _ []. }
  now rewrite (Permutation_length Hp).
Qed.

Lemma ascending_insertions_give_a_chain_witness :
  height (root (courseTree (snd (forEach
    [mkCourse "CSCI100" "Introduction" []; mkCourse "CSCI200" "Data Structures" [];
     mkCourse "MATH201" "Discrete Mathematics" []]
    insert (mkWorld (mkCourseBST nullptr) ""))))) = 3.
Proof.
  refine (proj1 (proj2 (ascending_insertions_give_a_chain
    [mkCourse "CSCI100" "Introduction" []; mkCourse "CSCI200" "Data Structures" [];
     mkCourse "MATH201" "Discrete Mathematics" []] "" _))).
  repeat constructor.
Defined.

Lemma insertions_of_different_numbers_commute_witness :
  inOrder (root (courseTree (snd (insert (mkCourse "CS300" "Algorithms" [])
             (snd (insert (mkCourse "CS200" "Data" []) (loadedFrom "CS101,Intro"))))))) =
  inOrder (root (courseTree (snd (insert (mkCourse "CS200" "Data" [])
             (snd (insert (mkCourse "CS300" "Algorithms" []) (loadedFrom "CS101,Intro"))))))).
Proof.
  refine (proj1 (proj2 (insertions_of_different_numbers_commute
    (loadedFrom "CS101,Intro") (mkCourse "CS200" "Data" [])
    (mkCourse "CS300" "Algorithms" []) _ _))).
  - apply (reachable_insert _ (mkCourse "CS101" "Intro" [])), reachable_empty.
  - discriminate.
Defined.

(** ** Trimming, further *)

Section TrimFurther.

Lemma lstrip_decompose s :
  exists pre, s = pre ++ lstrip s /\ allIn whitespace pre = true.
Proof.
  induction s as [|c s (pre & E & H)]; cbn [lstrip].
  - exists "". split; reflexivity.
  - destruct (Str.mem c whitespace) eqn:M.
    + exists (String c pre). cbn [append allIn]. rewrite M, H, <- E. split; reflexivity.
    + exists "". split; reflexivity.
Qed.

Lemma rstrip_decompose s :
  exists post, s = rstrip s ++ post /\ allIn whitespace post = true.
Proof.
  induction s as [|c s (post & E & H)]; cbn [rstrip].
  - exists "". split; reflexivity.
  - destruct (rstrip s) as [|d r] eqn:R.
    + cbn [append] in E. subst post.
      destruct (Str.mem c whitespace) eqn:M.
      * exists (String c s). cbn [append allIn]. rewrite M, H. split; reflexivity.
      * exists s. split; [reflexivity|assumption].
    + exists post. cbn [append] in *. rewrite <- E. split; [reflexivity|assumption].
Qed.

Lemma rstrip_blank s : rstrip s = "" <-> allIn whitespace s = true.
Proof.
  induction s as [|c s IH]; cbn [rstrip allIn]; [tauto|].
  destruct (rstrip s) as [|d r].
  - destruct (Str.mem c whitespace); simpl; [|split; discriminate].
    split; intros _; [now apply IH|reflexivity].
  - split; [discriminate|]. intros H. apply andb_true_iff in H.
    destruct H as (_ & H). apply IH in H. discriminate.
Qed.

Lemma lstrip_blank s : lstrip s = "" <-> allIn whitespace s = true.
Proof.
  induction s as [|c s IH]; cbn [lstrip allIn]; [tauto|].
  destruct (Str.mem c whitespace); simpl; [exact IH|split; discriminate].
Qed.

Lemma allIn_lstrip s : allIn whitespace (lstrip s) = true -> allIn whitespace s = true.
Proof.
  induction s as [|c s IH]; cbn [lstrip allIn]; [trivial|].
  destruct (Str.mem c whitespace) eqn:M; cbn [andb]; [exact IH|].
  cbn [allIn]. rewrite M. discriminate.
Qed.

Lemma rstrip_idempotent s : rstrip (rstrip s) = rstrip s.
Proof.
  induction s as [|c s IH]; cbn [rstrip]; [reflexivity|].
  destruct (rstrip s) as [|d r] eqn:R.
  - destruct (Str.mem c whitespace) eqn:M; cbn [rstrip]; [reflexivity|].
    now rewrite M.
  - cbn [rstrip] in *. now rewrite IH.
Qed.

Lemma lstrip_fixed s c r :
  s = String c r -> Str.mem c whitespace = false -> lstrip s = s.
Proof. intros -> M. cbn [lstrip]. now rewrite M. Qed.

Lemma length_trim_le s :
  (Z.of_nat (String.length s) < Str.npos)%Z ->
  String.length (trim s) <= String.length s.
Proof.
  intros Hlen. rewrite (trim_strip s Hlen).
  destruct (lstrip_decompose s) as (pre & E1 & _).
  destruct (rstrip_decompose (lstrip s)) as (post & E2 & _).
  rewrite E1 at 2. rewrite E2 at 2. rewrite !length_append. lia.
Qed.

End TrimFurther.

(** X9.  [trim] cuts whitespace off both ends and touches nothing else: a
    string that fits in memory is its trimmed form between a prefix and a
    suffix made of spaces, tabs, carriage returns and newlines only, and
    the trimmed form, when not empty, neither starts nor ends with such a
    character. *)
Theorem trim_removes_only_surrounding_whitespace s :
  (Z.of_nat (String.length s) < Str.npos)%Z ->
  (exists pre post,
     s = pre ++ trim s ++ post /\
     allIn whitespace pre = true /\ allIn whitespace post = true)
  /\ (forall c r, trim s = String c r ->
        Str.mem c whitespace = false /\
        exists d, lastChar (trim s) = Some d /\ Str.mem d whitespace = false).
Proof.
  intros Hlen. split.
  - rewrite (trim_strip s Hlen).
    destruct (lstrip_decompose s) as (pre & E1 & H1).
    destruct (rstrip_decompose (lstrip s)) as (post & E2 & H2).
    exists pre, post. repeat split; try assumption.
    rewrite <- E2. exact E1.
  - intros c r E. now apply (trim_edges s c r Hlen).
Qed.

Lemma trim_removes_only_surrounding_whitespace_witness :
  exists pre post,
    "  CSCI 100 " = pre ++ trim "  CSCI 100 " ++ post /\
    allIn whitespace pre = true /\ allIn whitespace post = true.
Proof.
  refine (proj1 (trim_removes_only_surrounding_whitespace "  CSCI 100 " _)).
  reflexivity.
Defined.

(** X10.  [trim] is idempotent, and it returns the empty string exactly
    for the strings made of whitespace only (the empty string among them):
    these are the lines the loader skips without a word. *)
Theorem trim_idempotent_and_blank s :
  (Z.of_nat (String.length s) < Str.npos)%Z ->
  trim (trim s) = trim s
  /\ (trim s = "" <-> allIn whitespace s = true).
Proof.
  intros Hlen. pose proof (length_trim_le s Hlen) as Hle. split.
  - rewrite (trim_strip (trim s)) by lia. rewrite (trim_strip s Hlen).
    destruct (rstrip (lstrip s)) as [|c r] eqn:E; [reflexivity|].
    destruct (rstrip_head _ _ _ E) as (r' & Hl).
    pose proof (lstrip_head _ _ _ Hl) as M.
    rewrite (lstrip_fixed (String c r) c r Logic.eq_refl M).
    rewrite <- E. apply rstrip_idempotent.
  - rewrite (trim_strip s Hlen). rewrite rstrip_blank. split.
    + apply allIn_lstrip.
    + intros H. apply lstrip_blank in H. now rewrite H.
Qed.

Lemma trim_idempotent_and_blank_witness :
  trim (trim "  CSCI 100 ") = trim "  CSCI 100 ".
Proof.
  refine (proj1 (trim_idempotent_and_blank "  CSCI 100 " _)). reflexivity.
Defined.

(** ** Splitting, further *)

Section SplitFurther.

Variable delimiter : ascii.

Lemma join_spec_fields line : join delimiter (spec_fields line delimiter) = line.
Proof.
  induction line as [|c line IH]; [reflexivity|]. cbn [spec_fields].
  destruct (Ascii.eqb c delimiter) eqn:E.
  - apply Ascii.eqb_eq in E. subst c. cbn [join].
    destruct (spec_fields line delimiter) as [|f fs] eqn:F.
    + now destruct (spec_fields_not_nil delimiter line).
    + now rewrite IH.
  - destruct (spec_fields line delimiter) as [|f fs] eqn:F.
    + now destruct (spec_fields_not_nil delimiter line).
    + cbn [join] in *. destruct fs; cbn [append]; now rewrite IH.
Qed.

Lemma spec_fields_no_delimiter line :
  Forall (fun field => Str.mem delimiter field = false) (spec_fields line delimiter).
Proof.
  induction line as [|c line IH]; cbn [spec_fields].
  - repeat constructor.
  - destruct (Ascii.eqb c delimiter) eqn:E.
    + constructor; [reflexivity|assumption].
    + destruct (spec_fields line delimiter) as [|f fs].
      * repeat constructor. cbn [Str.mem]. now rewrite Ascii.eqb_sym, E.
      * inversion IH as [|? ? Hf Hfs]; subst. constructor; [|assumption].
        cbn [Str.mem]. now rewrite Ascii.eqb_sym, E, Hf.
Qed.

Lemma dropLastEmpty_incl fields x : In x (dropLastEmpty fields) -> In x fields.
Proof.
  induction fields as [|f fs IH]; [trivial|]. cbn [dropLastEmpty].
  destruct fs as [|g fs].
  - destruct (Str.empty f); [intros []|trivial].
  - intros [->|H]; [now left|right; now apply IH].
Qed.

Lemma join_app_empty tokens :
  tokens <> [] ->
  join delimiter (tokens ++ [""]) = join delimiter tokens ++ String delimiter "".
Proof.
  induction tokens as [|t ts IH]; [congruence|]. intros _.
  destruct ts as [|u ts]; [reflexivity|].
  change ((t :: u :: ts) ++ [""])%list with (t :: ((u :: ts) ++ [""]))%list.
  cbn [join app]. cbn [join app] in IH. rewrite IH by discriminate.
  symmetry. apply (append_assoc t (String delimiter _) (String delimiter "")).
Qed.

Lemma length_spec_fields line :
  List.length (spec_fields line delimiter) = S (countChar delimiter line).
Proof.
  induction line as [|c line IH]; [reflexivity|]. cbn [spec_fields countChar].
  destruct (Ascii.eqb c delimiter); cbn [List.length]; [now rewrite IH|].
  destruct (spec_fields line delimiter); simpl in *; lia.
Qed.

Lemma spec_fields_single line field :
  spec_fields line delimiter = [field] -> field = line.
Proof.
  intros E. rewrite <- (join_spec_fields line). now rewrite E.
Qed.

Lemma endsWith_cons c line :
  endsWith delimiter (String c line) =
  match line with
  | EmptyString => Ascii.eqb c delimiter
  | String _ _ => endsWith delimiter line
  end.
Proof. unfold endsWith. cbn [lastChar]. now destruct line. Qed.

Lemma length_dropLastEmpty_spec_fields line :
  List.length (dropLastEmpty (spec_fields line delimiter)) =
  if Str.empty line || endsWith delimiter line
  then countChar delimiter line
  else S (countChar delimiter line).
Proof.
  induction line as [|c line IH]; [reflexivity|].
  rewrite endsWith_cons. cbn [spec_fields countChar Str.empty orb].
  destruct (Ascii.eqb c delimiter) eqn:E.
  - destruct (spec_fields line delimiter) as [|f fs] eqn:F;
      [now destruct (spec_fields_not_nil delimiter line)|].
    cbn [dropLastEmpty List.length]. cbn [dropLastEmpty] in IH. rewrite IH.
    destruct line; cbn [Str.empty orb]; [reflexivity|].
    now destruct (endsWith delimiter (String a line)).
  - destruct (spec_fields line delimiter) as [|f fs] eqn:F;
      [now destruct (spec_fields_not_nil delimiter line)|].
    destruct fs as [|g fs].
    + pose proof (length_spec_fields line) as L. rewrite F in L.
      cbn [List.length] in L.
      apply spec_fields_single in F. subst f.
      cbn [dropLastEmpty Str.empty List.length].
      destruct line as [|a line]; [reflexivity|].
      cbn [dropLastEmpty Str.empty List.length orb] in IH.
      destruct (endsWith delimiter (String a line)); lia.
    + cbn [dropLastEmpty List.length] in *. rewrite IH.
      destruct line; cbn [Str.empty orb]; [discriminate|].
      now destruct (endsWith delimiter (String a line)).
Qed.

End SplitFurther.

(** X11.  [split] loses nothing but a final delimiter: no token contains
    the delimiter, and the tokens joined by the delimiter give the line
    back, or the line without its last character when the line ends with
    the delimiter. *)
Theorem split_then_join line delimiter :
  Forall (fun token => Str.mem delimiter token = false) (split line delimiter)
  /\ (endsWith delimiter line = false ->
      join delimiter (split line delimiter) = line)
  /\ (endsWith delimiter line = true ->
      join delimiter (split line delimiter) ++ String delimiter "" = line).
Proof.
  rewrite split_spec_fields. split; [|split].
  - apply Forall_forall. intros x Hx. apply dropLastEmpty_incl in Hx.
    pose proof (spec_fields_no_delimiter delimiter line) as H.
    rewrite Forall_forall in H. now apply H.
  - intros He.
    pose proof (length_dropLastEmpty_spec_fields delimiter line) as L.
    rewrite He, orb_false_r in L.
    destruct (dropLastEmpty_cases (spec_fields line delimiter)) as [->|E].
    + apply join_spec_fields.
    + destruct line as [|c line]; [reflexivity|]. cbn [Str.empty] in L.
      pose proof (length_spec_fields delimiter (String c line)) as L2.
      rewrite E, length_app, L in L2. simpl in L2. lia.
  - intros He.
    pose proof (length_dropLastEmpty_spec_fields delimiter line) as L.
    rewrite He, orb_true_r in L.
    pose proof (length_spec_fields delimiter line) as L2.
    destruct (dropLastEmpty_cases (spec_fields line delimiter)) as [E|E].
    + rewrite E in L. lia.
    + destruct (dropLastEmpty (spec_fields line delimiter)) as [|t ts] eqn:D.
      * destruct line as [|c line]; [discriminate|].
        apply spec_fields_single in E. discriminate.
      * rewrite <- join_app_empty by discriminate. rewrite <- E.
        apply join_spec_fields.
Qed.

Lemma split_then_join_witness :
  join ","%char (split "CS101,Intro,CS100," ","%char) ++ String ","%char "" =
  "CS101,Intro,CS100,".
Proof.
  refine (proj2 (proj2 (split_then_join "CS101,Intro,CS100," ","%char)) _).
  reflexivity.
Defined.

(** X12.  The number of tokens of [split] is the number of delimiters plus
    one, less one when the line is empty or ends with the delimiter.  So
    the loader finds fewer than two fields exactly in the lines that have
    no comma or whose only comma is their last character. *)
Theorem split_token_count line delimiter :
  List.length (split line delimiter) =
    (if Str.empty line || endsWith delimiter line
     then countChar delimiter line
     else S (countChar delimiter line))
  /\ (List.length (split line delimiter) < 2 <->
      countChar delimiter line = 0 \/
      (countChar delimiter line = 1 /\ endsWith delimiter line = true)).
Proof.
  rewrite split_spec_fields, length_dropLastEmpty_spec_fields.
  split; [reflexivity|].
  destruct line as [|c line]; [simpl; lia|]. cbn [Str.empty orb].
  destruct (endsWith delimiter (String c line)) eqn:E.
  - assert (0 < countChar delimiter (String c line)).
    { clear - E. revert c E. induction line as [|a line IH]; intros c E.
      - unfold endsWith in E. simpl in E. simpl. rewrite E. lia.
      - rewrite endsWith_cons in E. specialize (IH a E).
        cbn [countChar] in *. lia. }
    split; [intros; right; split; [lia|reflexivity]|lia].
  - split; [lia|]. intros [H|(_ & H)]; [lia|discriminate].
Qed.

(** ** Upper case, further *)

Section UpperFurther.

Lemma toupper_not_lower c : isLower (Str.toupper c) = false.
Proof. destruct c as [[] [] [] [] [] [] [] []]; reflexivity. Qed.

Lemma toupper_fixed_b c : Ascii.eqb (Str.toupper c) c = negb (isLower c).
Proof. destruct c as [[] [] [] [] [] [] [] []]; reflexivity. Qed.

Lemma toupper_fixed c : isLower c = false <-> Str.toupper c = c.
Proof.
  rewrite <- Ascii.eqb_eq, toupper_fixed_b. now destruct (isLower c).
Qed.

Lemma hasLower_toUpper s : hasLower (toUpper s) = false.
Proof.
  induction s as [|c s IH]; [reflexivity|]. cbn [toUpper hasLower].
  now rewrite toupper_not_lower, IH.
Qed.

Lemma toUpper_fixed s : hasLower s = false <-> toUpper s = s.
Proof.
  induction s as [|c s IH]; cbn [toUpper hasLower]; [tauto|].
  rewrite orb_false_iff, IH, toupper_fixed. split.
  - intros (-> & ->). reflexivity.
  - intros [= H1 H2]. now rewrite !H1, !H2.
Qed.

Lemma length_toUpper s : String.length (toUpper s) = String.length s.
Proof. induction s as [|c s IH]; simpl; [reflexivity|now rewrite IH]. Qed.

End UpperFurther.

(** X13.  [toUpper] keeps the length, leaves no lower-case letter of ASCII
    behind, changes nothing in a string without such a letter, and so gives
    the same result when applied twice. *)
Theorem toUpper_normalises s :
  String.length (toUpper s) = String.length s
  /\ hasLower (toUpper s) = false
  /\ (hasLower s = false <-> toUpper s = s)
  /\ toUpper (toUpper s) = toUpper s.
Proof.
  repeat split.
  - apply length_toUpper.
  - apply hasLower_toUpper.
  - apply toUpper_fixed.
  - apply toUpper_fixed.
  - apply toUpper_fixed, hasLower_toUpper.
Qed.

(** ** What a load leaves in the store *)

Section LoadedStore.

Lemma classify_Accepted line c :
  classify line = Accepted c ->
  c = courseOfTokens (split line ","%char) /\
  2 <= List.length (split line ","%char) /\
  courseNumber c <> "" /\ courseTitle c <> "".
Proof.
  unfold classify. destruct (Str.empty (trim line)); [discriminate|]. cbv zeta.
  destruct (Nat.ltb (List.length (split line ","%char)) 2) eqn:L; [discriminate|].
  destruct (Str.empty (courseNumber (courseOfTokens (split line ","%char)))) eqn:E1;
    [discriminate|].
  destruct (Str.empty (courseTitle (courseOfTokens (split line ","%char)))) eqn:E2;
    [discriminate|].
  cbn [negb andb]. intros [= <-]. apply Nat.ltb_ge in L.
  repeat split; try assumption.
  - intros H. now rewrite H in E1.
  - intros H. now rewrite H in E2.
Qed.

Lemma In_lineCourses lines c :
  In c (lineCourses lines) ->
  exists line, In line lines /\ classify line = Accepted c.
Proof.
  induction lines as [|l lines IH]; cbn [lineCourses]; [intros []|].
  destruct (classify l) as [| | |c'] eqn:E;
    try (intros H; destruct (IH H) as (line & H1 & H2); exists line; split; [now right|assumption]).
  intros [<-|H].
  - exists l. split; [now left|assumption].
  - destruct (IH H) as (line & H1 & H2). exists line. split; [now right|assumption].
Qed.

Lemma length_lineCourses lines : List.length (lineCourses lines) <= List.length lines.
Proof.
  induction lines as [|l lines IH]; cbn [lineCourses]; [apply Nat.le_refl|].
  destruct (classify l); cbn [List.length]; lia.
Qed.

Lemma reports_app before : forall after lineNumber,
  (0 <= lineNumber)%Z ->
  (lineNumber + Z.of_nat (List.length before) <= Str.INT_MAX)%Z ->
  reports (before ++ after) lineNumber =
  reports before lineNumber ++
  reports after (lineNumber + Z.of_nat (List.length before)).
Proof.
  induction before as [|l before IH]; intros after n Hn Hmax.
  - cbn [app reports List.length append]. now rewrite Z.add_0_r.
  - cbn [List.length] in Hmax. cbn [app reports].
    rewrite (int_wrap_small (n + 1)) by (unfold Str.INT_MAX in *; lia).
    rewrite IH by lia. rewrite append_assoc. do 3 f_equal.
    cbn [List.length]. lia.
Qed.

Lemma nonEmpty_filter_Forall xs :
  Forall (fun p => p <> "") (filter nonEmpty xs).
Proof.
  apply Forall_forall. intros p Hp. apply filter_In in Hp.
  destruct Hp as (_ & Hp). intros ->. discriminate.
Qed.

End LoadedStore.

(** X14.  After a load that opens its file, every course in the store
    comes from an accepted line of that file: it is the course built from
    the tokens of a line with at least two tokens, its number and its title
    are not empty and none of its prerequisites is empty.  The store holds
    at most one course per line of the file. *)
Theorem loaded_courses_come_from_accepted_lines fs fileName content w :
  fs fileName = Some content ->
  let nd := root (courseTree (snd (loadCoursesFromFile fs fileName w))) in
  (forall c, In c (inOrder nd) ->
     exists line,
       In line (fileLines content) /\
       c = courseOfTokens (split line ","%char) /\
       2 <= List.length (split line ","%char) /\
       courseNumber c <> "" /\ courseTitle c <> "" /\
       Forall (fun p => p <> "") (prerequisites c))
  /\ size nd <= List.length (fileLines content).
Proof.
  intros E. cbv zeta. rewrite (loadCoursesFromFile_open _ _ _ _ E).
  cbn [snd courseTree root]. split.
  - intros c Hc. destruct (In_inOrder_fold _ _ _ Hc) as [H|[]].
    destruct (In_lineCourses _ _ H) as (line & Hl & Ha).
    destruct (classify_Accepted _ _ Ha) as (Hc1 & Hc2 & Hc3 & Hc4).
    exists line. repeat split; try assumption.
    rewrite Hc1, prerequisites_courseOfTokens. apply nonEmpty_filter_Forall.
  - rewrite <- size_inOrder.
    etransitivity; [|apply length_lineCourses].
    rewrite <- (length_map courseNumber (inOrder _)),
            <- (length_map courseNumber (lineCourses _)).
    apply NoDup_incl_length.
    + apply strictly_ascending_NoDup, bst_strictly_ascending.
      apply fold_insertHelper_bst. exact I.
    + intros k Hk. apply in_map_iff in Hk. destruct Hk as (c & <- & Hc).
      apply in_map. destruct (In_inOrder_fold _ _ _ Hc) as [H|[]]. exact H.
Qed.

Lemma loaded_courses_come_from_accepted_lines_witness :
  size (root (courseTree (snd (loadCoursesFromFile
          (oneFile "courses.csv" ("CS101,Intro" ++ nl ++ "CS101,Introduction"))
          "courses.csv" initialWorld)))) <=
  List.length (fileLines ("CS101,Intro" ++ nl ++ "CS101,Introduction")).
Proof.
  refine (proj2 (loaded_courses_come_from_accepted_lines
    (oneFile "courses.csv" ("CS101,Intro" ++ nl ++ "CS101,Introduction"))
    "courses.csv" ("CS101,Intro" ++ nl ++ "CS101,Introduction") initialWorld _)).
  reflexivity.
Defined.

(** X15.  When several accepted lines of a file carry the same course
    number, the last of them wins: after the load a [search] for a number
    returns the course of the last accepted line with that number, and
    nothing when no accepted line has it. *)
Theorem last_line_wins fs fileName content w k :
  fs fileName = Some content ->
  fst (search k (snd (loadCoursesFromFile fs fileName w))) =
  lastCourse k (lineCourses (fileLines content)).
Proof.
  intros E. rewrite (loadCoursesFromFile_open _ _ _ _ E).
  unfold search. cbn [fst snd courseTree root].
  rewrite searchHelper_fold. now destruct (lastCourse k _).
Qed.

Lemma last_line_wins_witness :
  fst (search "CS101" (snd (loadCoursesFromFile
         (oneFile "courses.csv" ("CS101,Intro" ++ nl ++ "CS101,Introduction"))
         "courses.csv" initialWorld))) =
  Some (mkCourse "CS101" "Introduction" []).
Proof.
  exact (last_line_wins
    (oneFile "courses.csv" ("CS101,Intro" ++ nl ++ "CS101,Introduction"))
    "courses.csv" ("CS101,Intro" ++ nl ++ "CS101,Introduction") initialWorld "CS101"
    Logic.eq_refl).
Defined.

(** X16.  In a file whose number of lines fits an [int], the number in a
    diagnostic is the position of the line in the file, blank lines
    counted: for the line that follows the lines [before], the loader
    writes, after the diagnostics of [before] and ahead of those of the
    lines after it, the format error or the warning with the number
    [length before + 1], and nothing for a blank or an accepted line. *)
Theorem diagnostics_carry_line_numbers fs fileName content w before line after :
  fs fileName = Some content ->
  fileLines content = (before ++ line :: after)%list ->
  (Z.of_nat (List.length (fileLines content)) <= Str.INT_MAX)%Z ->
  let lineNumber := (Z.of_nat (List.length before) + 1)%Z in
  cout (snd (loadCoursesFromFile fs fileName w)) =
  cout w ++ reports before 0 ++
  match classify line with
  | TooFewFields =>
      "File format error on line " ++ Str.of_int lineNumber ++
      ": fewer than two fields." ++ nl ++ "Offending line: " ++ line ++ nl
  | MissingField =>
      "File format warning on line " ++ Str.of_int lineNumber ++
      ": missing course number or title." ++ nl
  | Blank | Accepted _ => ""
  end ++
  reports after lineNumber ++
  "Courses successfully loaded from file: " ++ fileName ++ nl.
Proof.
  intros E Hl Hmax. cbv zeta. rewrite (loadCoursesFromFile_open _ _ _ _ E).
  rewrite Hl, length_app in Hmax. cbn [List.length] in Hmax.
  cbn [snd cout]. rewrite Hl, reports_app by lia. cbn [reports].
  rewrite (int_wrap_small (0 + Z.of_nat (List.length before) + 1))
    by (unfold Str.INT_MAX in *; lia).
  rewrite !append_assoc. reflexivity.
Qed.

Lemma diagnostics_carry_line_numbers_witness :
  cout (snd (loadCoursesFromFile
         (oneFile "courses.csv" ("CS101,Intro" ++ nl ++ nl ++ "CS200"))
         "courses.csv" initialWorld)) =
  "File format error on line 3: fewer than two fields." ++ nl ++
  "Offending line: CS200" ++ nl ++
  "Courses successfully loaded from file: courses.csv" ++ nl.
Proof.
  exact (diagnostics_carry_line_numbers
    (oneFile "courses.csv" ("CS101,Intro" ++ nl ++ nl ++ "CS200"))
    "courses.csv" ("CS101,Intro" ++ nl ++ nl ++ "CS200") initialWorld
    ["CS101,Intro"; ""] "CS200" [] Logic.eq_refl Logic.eq_refl
    ltac:(vm_compute; discriminate)).
Defined.

(** ** Which courses a description can reach *)

(** X17.  In a tree the program can hold, the course that
    [printCourseInformation] finds carries the upper-case form of the
    number asked for; hence the courses that some request can reach are
    exactly those of the tree whose number has no lower-case letter. *)
Theorem describable_courses w c :
  reachable (root (courseTree w)) ->
  (forall targetNumber,
     fst (search (toUpper targetNumber) w) = Some c ->
     courseNumber c = toUpper targetNumber)
  /\ ((exists targetNumber, fst (search (toUpper targetNumber) w) = Some c) <->
      In c (inOrder (root (courseTree w))) /\ hasLower (courseNumber c) = false).
Proof.
  intros Hr. pose proof (reachable_bst _ Hr) as Hb. unfold search. cbn [fst].
  split.
  - intros q Hs. now apply searchHelper_Some in Hs.
  - split.
    + intros (q & Hs). apply searchHelper_Some in Hs. destruct Hs as (Hin & Hk).
      split; [assumption|]. rewrite Hk. apply hasLower_toUpper.
    + intros (Hin & Hl). exists (courseNumber c).
      rewrite (proj1 (toUpper_fixed _) Hl). now apply searchHelper_complete.
Qed.

Lemma describable_courses_witness :
  (exists targetNumber,
     fst (search (toUpper targetNumber) (loadedFrom "CS101,Intro")) =
     Some (mkCourse "CS101" "Intro" [])) <->
  In (mkCourse "CS101" "Intro" []) (inOrder (root (courseTree (loadedFrom "CS101,Intro")))) /\
  hasLower "CS101" = false.
Proof.
  refine (proj2 (describable_courses (loadedFrom "CS101,Intro")
                   (mkCourse "CS101" "Intro" []) _)).
  apply (reachable_insert _ (mkCourse "CS101" "Intro" [])), reachable_empty.
Defined.

(** ** The menu loop *)

Section MenuLoop.

(** On a good stream [getlineState] reads what [getline] reads. *)
Lemma getlineState_getline strm str :
  good strm = true ->
  match getline (pending strm) "010"%char with
  | Some (line, rest) =>
      snd (getlineState strm str) = line /\
      pending (fst (getlineState strm str)) = rest /\
      failbit (fst (getlineState strm str)) = false
  | None => failbit (fst (getlineState strm str)) = true
  end.
Proof.
  intros G. unfold getlineState, getline. rewrite G.
  destruct (pending strm) as [|c p] eqn:P; [reflexivity|].
  destruct (getline_chars (String c p) "010"%char) as [line rest] eqn:E.
  destruct (Str.mem "010"%char (String c p)) eqn:Hm; cbn [fst snd pending failbit].
  - repeat split.
  - repeat split.
    rewrite (getline_chars_no_delimiter _ _ Hm) in E. now injection E as _ <-.
Qed.

(** Once a stream is not good it stays so, and [getlineState] no longer
    changes the string it is given. *)
Lemma getlineState_not_good strm str :
  good strm = false ->
  snd (getlineState strm str) = str /\
  good (fst (getlineState strm str)) = false /\
  pending (fst (getlineState strm str)) = pending strm.
Proof.
  intros G. unfold getlineState. rewrite G. cbn [fst snd pending].
  repeat split. unfold good. cbn [eofbit failbit]. apply andb_false_r.
Qed.

(** A good stream that holds nothing fails and yields the empty string. *)
Lemma getlineState_exhausted strm str :
  good strm = true -> pending strm = "" ->
  getlineState strm str = (mkIstream "" true true, "").
Proof. intros G P. unfold getlineState. now rewrite G, P. Qed.

(** What an iteration does, choice by choice. *)
Lemma mainIteration_run fs choice input loaded w :
  mainIteration fs choice input loaded w =
  if Str.eq choice "1" then
    if Str.empty input then
      ((loaded, true),
       mkWorld (courseTree w)
               (cout w ++ menuText ++ "Enter course data file name: " ++
                "File name cannot be empty." ++ nl))
    else
      let r := loadCoursesFromFile fs input
                 (mkWorld (courseTree w)
                          (cout w ++ menuText ++ "Enter course data file name: ")) in
      ((fst r, true), snd r)
  else if Str.eq choice "2" then
    if loaded then
      ((true, true),
       mkWorld (courseTree w)
               (cout w ++ menuText ++ nl ++ "Here is the list of courses:" ++ nl ++
                match root (courseTree w) with
                | nullptr => "No courses loaded." ++ nl
                | node _ _ _ => listing (inOrder (root (courseTree w)))
                end))
    else ((false, true), mkWorld (courseTree w) (cout w ++ menuText ++ loadFirstNotice))
  else if Str.eq choice "3" then
    if loaded then
      ((true, true),
       mkWorld (courseTree w)
               (cout w ++ menuText ++
                "Please enter the course number (for example, CS200): " ++
                if Str.empty input then "Course number cannot be empty." ++ nl
                else match searchHelper (root (courseTree w)) (toUpper input) with
                     | Some c => description (root (courseTree w)) c
                     | None => notFoundMessage input
                     end))
    else ((false, true), mkWorld (courseTree w) (cout w ++ menuText ++ loadFirstNotice))
  else if Str.eq choice "9" then
    ((loaded, false), mkWorld (courseTree w) (cout w ++ menuText ++ goodbye))
  else ((loaded, true), mkWorld (courseTree w) (cout w ++ menuText ++ invalidChoice)).
Proof.
  unfold mainIteration, loadFirstNotice, goodbye, invalidChoice.
  unfold bind at 1. rewrite printMenu_run.
  destruct (Str.eq choice "1").
  - rewrite bind_print. cbn [courseTree cout]. rewrite append_assoc.
    destruct (Str.empty input).
    + run. reflexivity.
    + unfold bind, ret. cbv zeta.
      now destruct (loadCoursesFromFile fs input _).
  - destruct (Str.eq choice "2").
    + destruct loaded; cbn [negb].
      * unfold endl. rewrite !bind_print. unfold bind.
        rewrite printInOrder_run. unfold ret. cbn [courseTree cout].
        fold nl. now rewrite ?append_assoc.
      * run. reflexivity.
    + destruct (Str.eq choice "3").
      * destruct loaded; cbn [negb].
        -- rewrite bind_print. cbn [courseTree cout]. unfold bind at 1.
           destruct (Str.empty input).
           ++ run. reflexivity.
           ++ rewrite printCourseInformation_run. unfold ret.
              cbn [courseTree cout root]. now rewrite ?append_assoc.
        -- run. reflexivity.
      * destruct (Str.eq choice "9"); run; reflexivity.
Qed.

Lemma mainIteration_running fs choice input loaded w :
  snd (fst (mainIteration fs choice input loaded w)) = negb (Str.eq choice "9").
Proof.
  rewrite mainIteration_run.
  destruct (Str.eq choice "1") eqn:E1.
  - apply eq_true_iff in E1. subst choice. now destruct (Str.empty input).
  - destruct (Str.eq choice "2") eqn:E2.
    + apply eq_true_iff in E2. subst choice. now destruct loaded.
    + destruct (Str.eq choice "3") eqn:E3.
      * apply eq_true_iff in E3. subst choice. now destruct loaded.
      * now destruct (Str.eq choice "9").
Qed.

Lemma loadCoursesFromFile_reachable fs name w :
  reachable (root (courseTree w)) ->
  reachable (root (courseTree (snd (loadCoursesFromFile fs name w)))).
Proof.
  intros Hr. destruct (fs name) as [content|] eqn:E.
  - rewrite (loadCoursesFromFile_open _ _ _ _ E). apply loaded_reachable.
  - now rewrite (loadCoursesFromFile_closed _ _ _ E).
Qed.

Lemma mainIteration_reachable fs choice input loaded w :
  reachable (root (courseTree w)) ->
  reachable (root (courseTree (snd (mainIteration fs choice input loaded w)))).
Proof.
  intros Hr. rewrite mainIteration_run.
  destruct (Str.eq choice "1"); [destruct (Str.empty input); [exact Hr|]|].
  - cbv zeta. cbn [snd]. now apply loadCoursesFromFile_reachable.
  - destruct (Str.eq choice "2"); [now destruct loaded|].
    destruct (Str.eq choice "3"); [now destruct loaded|].
    now destruct (Str.eq choice "9").
Qed.

Lemma mainStep_run fs st w :
  exists input strm,
    mainStep fs st w =
    (let r := mainIteration fs (snd (getlineState (cin st) (userChoice st)))
                input (dataLoaded st) w in
     ((mkMainState strm (fst (fst r))
         (if Str.eq (snd (getlineState (cin st) (userChoice st))) "1"
          then input else fileName st)
         (snd (getlineState (cin st) (userChoice st))),
       snd (fst r)), snd r))
    /\ (good (fst (getlineState (cin st) (userChoice st))) = false ->
        good strm = false /\ pending strm = pending (fst (getlineState (cin st) (userChoice st)))).
Proof.
  unfold mainStep.
  destruct (getlineState (cin st) (userChoice st)) as [cin1 choice] eqn:G1.
  cbn [fst snd].
  destruct (Str.eq choice "1") eqn:E1.
  - destruct (getlineState cin1 (fileName st)) as [cin2 name] eqn:G2.
    exists name, cin2. split.
    + unfold bind, ret. cbv zeta.
      now destruct (mainIteration fs choice name (dataLoaded st) w) as [[a b] w'].
    + intros Hg. destruct (getlineState_not_good cin1 (fileName st) Hg) as (_ & H1 & H2).
      rewrite G2 in H1, H2. cbn [fst] in H1, H2. now split.
  - destruct (Str.eq choice "3" && dataLoaded st).
    + destruct (getlineState cin1 "") as [cin2 searchNumber] eqn:G2.
      exists searchNumber, cin2. split.
      * unfold bind, ret. cbv zeta.
        now destruct (mainIteration fs choice searchNumber (dataLoaded st) w) as [[a b] w'].
      * intros Hg. destruct (getlineState_not_good cin1 "" Hg) as (_ & H1 & H2).
        rewrite G2 in H1, H2. cbn [fst] in H1, H2. now split.
    + exists "", cin1. split.
      * unfold bind, ret. cbv zeta.
        now destruct (mainIteration fs choice "" (dataLoaded st) w) as [[a b] w'].
      * intros Hg. now split.
Qed.

Lemma mainStep_reachable fs st w :
  reachable (root (courseTree w)) ->
  reachable (root (courseTree (snd (mainStep fs st w)))).
Proof.
  intros Hr. destruct (mainStep_run fs st w) as (input & strm & -> & _).
  cbv zeta. cbn [snd]. now apply mainIteration_reachable.
Qed.

Lemma mainLoop_reachable fs fuel : forall st w,
  reachable (root (courseTree w)) ->
  reachable (root (courseTree (snd (mainLoop fuel fs st w)))).
Proof.
  induction fuel as [|fuel IH]; intros st w Hr; [exact Hr|].
  cbn [mainLoop]. unfold bind.
  pose proof (mainStep_reachable fs st w Hr) as H.
  destruct (mainStep fs st w) as [[st' running] w']. cbn [fst snd] in *.
  destruct running; [now apply IH|exact H].
Qed.

Lemma mainStep_stuck fs st w :
  stuck st ->
  stuck (fst (fst (mainStep fs st w))) /\ snd (fst (mainStep fs st w)) = true.
Proof.
  intros (Hg & Hc).
  destruct (getlineState_not_good (cin st) (userChoice st) Hg) as (Hs & Hg' & _).
  destruct (mainStep_run fs st w) as (input & strm & -> & Hstrm).
  cbv zeta. cbn [fst snd]. rewrite mainIteration_running, Hs.
  destruct (Hstrm Hg') as (Hg'' & _).
  split; [split; assumption|].
  now rewrite (proj2 (eq_false_iff _ _) Hc).
Qed.

Lemma mainLoop_stuck fs fuel : forall st w,
  stuck st -> fst (mainLoop fuel fs st w) = None.
Proof.
  induction fuel as [|fuel IH]; intros st w Hst; [reflexivity|].
  cbn [mainLoop]. unfold bind.
  destruct (mainStep_stuck fs st w Hst) as (Hst' & Hrun).
  destruct (mainStep fs st w) as [[st' running] w']. cbn [fst snd] in *.
  subst running. now apply IH.
Qed.

End MenuLoop.

(** X18.  An iteration of the menu loop goes on unless the choice is "9".
    It leaves the tree and the loaded flag as they are unless the choice is
    "1" and a file name is given.  While no data are loaded, choices "2"
    and "3" write the menu and the notice to load first, and nothing about
    the courses the tree may hold. *)
Theorem menu_iteration_frame fs choice input loaded w :
  snd (fst (mainIteration fs choice input loaded w)) = negb (Str.eq choice "9")
  /\ (choice <> "1" \/ input = "" ->
      courseTree (snd (mainIteration fs choice input loaded w)) = courseTree w /\
      fst (fst (mainIteration fs choice input loaded w)) = loaded)
  /\ (loaded = false -> choice = "2" \/ choice = "3" ->
      mainIteration fs choice input loaded w =
      ((false, true),
       mkWorld (courseTree w)
               (cout w ++ menuText ++
                "Please load the data structure first (option 1)." ++ nl))).
Proof.
  split; [apply mainIteration_running|]. split.
  - intros H. rewrite mainIteration_run.
    destruct (Str.eq choice "1") eqn:E1.
    + apply eq_true_iff in E1. destruct H as [H| ->]; [contradiction|].
      split; reflexivity.
    + destruct (Str.eq choice "2"); [destruct loaded; split; reflexivity|].
      destruct (Str.eq choice "3"); [destruct loaded; split; reflexivity|].
      destruct (Str.eq choice "9"); split; reflexivity.
  - intros -> [-> | ->]; now rewrite mainIteration_run.
Qed.

Lemma menu_iteration_frame_witness :
  courseTree (snd (mainIteration (oneFile "courses.csv" "CS101,Intro") "3" "cs101" true
                     (loadedFrom "CS101,Intro"))) =
  courseTree (loadedFrom "CS101,Intro").
Proof.
  refine (proj1 (proj1 (proj2 (menu_iteration_frame
    (oneFile "courses.csv" "CS101,Intro") "3" "cs101" true
    (loadedFrom "CS101,Intro"))) _)).
  left. discriminate.
Defined.

(** X19.  Whatever [main] reads, after any number of iterations of its
    loop the tree is one built from the empty tree by insertions; it is
    therefore a search tree whose course numbers, in visiting order, are
    strictly ascending and pairwise different. *)
Theorem main_keeps_a_search_tree fuel fs input :
  let nd := root (courseTree (snd (main fuel fs input initialWorld))) in
  reachable nd /\ bst nd /\ strictly_ascending (keys nd) /\ NoDup (keys nd).
Proof.
  cbv zeta. unfold main.
  assert (Hr : reachable (root (courseTree (snd (mainLoop fuel fs
            (mkMainState (mkIstream input false false) false "" "") initialWorld)))))
    by (apply mainLoop_reachable; constructor).
  pose proof (reachable_bst _ Hr) as Hb.
  repeat split; auto.
  - now apply bst_strictly_ascending.
  - now apply strictly_ascending_NoDup, bst_strictly_ascending.
Qed.

(** X20.  When the next line of a good standard input is "9", the loop
    writes the menu and the farewell and [main] returns 0, in one
    iteration, without touching the tree. *)
Theorem choice_9_ends_main fuel fs st w rest :
  good (cin st) = true ->
  pending (cin st) = "9" ++ nl ++ rest ->
  mainLoop (S fuel) fs st w =
  (Some 0%Z,
   mkWorld (courseTree w)
           (cout w ++ menuText ++
            "Thank you for using the ABCU Course Planner. Goodbye!" ++ nl)).
Proof.
  intros G P.
  assert (E : getlineState (cin st) (userChoice st) = (mkIstream rest false false, "9"))
    by (unfold getlineState; rewrite G, P; reflexivity).
  cbn [mainLoop]. unfold bind at 1. unfold mainStep. rewrite E.
  change (Str.eq "9" "1") with false. change (Str.eq "9" "3") with false.
  cbn [andb]. cbv iota. unfold bind at 1. rewrite mainIteration_run.
  reflexivity.
Qed.

Lemma choice_9_ends_main_witness :
  main 1 (oneFile "courses.csv" "CS101,Intro") ("9" ++ nl ++ "2" ++ nl) initialWorld =
  (Some 0%Z,
   mkWorld (courseTree initialWorld)
           (cout initialWorld ++ menuText ++
            "Thank you for using the ABCU Course Planner. Goodbye!" ++ nl)).
Proof.
  apply (choice_9_ends_main 0 (oneFile "courses.csv" "CS101,Intro")
           (mkMainState (mkIstream ("9" ++ nl ++ "2" ++ nl) false false) false "" "")
           initialWorld ("2" ++ nl)); reflexivity.
Defined.

(** X21.  [main] does not notice the end of its input.  Once standard
    input is exhausted, or has failed with a last choice other than "9",
    the loop never ends: however many iterations are allowed, [main] has
    not returned.  In particular [main] never returns on an empty
    input. *)
Theorem end_of_input_never_ends_main fuel fs st w :
  (good (cin st) = true -> pending (cin st) = "") ->
  (good (cin st) = false -> userChoice st <> "9") ->
  fst (mainLoop fuel fs st w) = None.
Proof.
  intros Hgood Hbad. destruct (good (cin st)) eqn:G.
  - destruct fuel as [|fuel]; [reflexivity|].
    cbn [mainLoop]. unfold bind.
    pose proof (getlineState_exhausted (cin st) (userChoice st) G (Hgood Logic.eq_refl)) as E.
    destruct (mainStep_run fs st w) as (input & strm & Hrun & Hstrm).
    rewrite E in Hrun, Hstrm. cbn [fst snd] in Hrun, Hstrm.
    rewrite Hrun. cbv zeta. cbn [fst snd].
    rewrite mainIteration_running.
    change (negb (Str.eq "" "9")) with true. cbv iota.
    apply mainLoop_stuck. split; cbn [cin userChoice].
    + now apply Hstrm.
    + discriminate.
  - apply mainLoop_stuck. split; [assumption|]. now apply Hbad.
Qed.

Lemma end_of_input_never_ends_main_witness :
  fst (main 25 (oneFile "courses.csv" "CS101,Intro") "" initialWorld) = None.
Proof.
  apply (end_of_input_never_ends_main 25 (oneFile "courses.csv" "CS101,Intro")
           (mkMainState (mkIstream "" false false) false "" "") initialWorld).
  - reflexivity.
  - discriminate.
Defined.

Section Sessions.

(** A session on standard input: load, list, describe, leave. *)
Example main_session :
  let content :=
    "CSCI200,Data Structures,CSCI100" ++ nl ++
    "CSCI100,Introduction to Computer Science" ++ nl in
  let input :=
    "1" ++ nl ++ "courses.csv" ++ nl ++ "2" ++ nl ++
    "3" ++ nl ++ "csci200" ++ nl ++ "9" ++ nl in
  main 10 (oneFile "courses.csv" content) input initialWorld =
  (Some 0%Z,
   mkWorld
     (mkCourseBST
        (node (mkCourse "CSCI200" "Data Structures" ["CSCI100"])
           (node (mkCourse "CSCI100" "Introduction to Computer Science" [])
                 nullptr nullptr)
           nullptr))
     (menuText ++ "Enter course data file name: " ++
      "Courses successfully loaded from file: courses.csv" ++ nl ++
      menuText ++ nl ++ "Here is the list of courses:" ++ nl ++
      "CSCI100, Introduction to Computer Science" ++ nl ++
      "CSCI200, Data Structures" ++ nl ++
      menuText ++ "Please enter the course number (for example, CS200): " ++ nl ++
      "CSCI200, Data Structures" ++ nl ++
      "Prerequisites:" ++ nl ++
      "  CSCI100, Introduction to Computer Science" ++ nl ++
      menuText ++ goodbye)).
Proof. vm_compute. reflexivity. Qed.

(** An input that ends after the choice "2", with no newline: the choice
    stays in [userChoice] and every further iteration repeats it. *)
Example main_repeats_last_choice :
  main 3 (oneFile "courses.csv" "") "2" initialWorld =
  (None,
   mkWorld (mkCourseBST nullptr)
     (menuText ++ loadFirstNotice ++ menuText ++ loadFirstNotice ++
      menuText ++ loadFirstNotice)).
Proof. vm_compute. reflexivity. Qed.

End Sessions.

(** ** Whitespace at the end of a line *)

Section TrailingWhitespace.

Lemma lstrip_append f s :
  lstrip (f ++ s) = if Str.empty (lstrip f) then lstrip s else lstrip f ++ s.
Proof.
  induction f as [|c f IH]; [reflexivity|]. cbn [append lstrip].
  destruct (Str.mem c whitespace); [exact IH|reflexivity].
Qed.

Lemma rstrip_append_whitespace t s :
  allIn whitespace s = true -> rstrip (t ++ s) = rstrip t.
Proof.
  intros H. induction t as [|c t IH]; cbn [append rstrip].
  - now apply rstrip_blank.
  - now rewrite IH.
Qed.

Lemma trim_append_whitespace f s :
  (Z.of_nat (String.length (f ++ s)) < Str.npos)%Z ->
  allIn whitespace s = true ->
  trim (f ++ s) = trim f.
Proof.
  intros Hlen Hs. rewrite (trim_strip _ Hlen).
  rewrite trim_strip by (rewrite length_append in Hlen; lia).
  rewrite lstrip_append. destruct (lstrip f) as [|c r] eqn:E; cbn [Str.empty].
  - now rewrite (proj2 (lstrip_blank s) Hs).
  - now apply rstrip_append_whitespace.
Qed.

Lemma whitespace_no_comma s :
  allIn whitespace s = true -> Str.mem ","%char s = false.
Proof.
  induction s as [|c s IH]; [reflexivity|]. cbn [allIn Str.mem].
  intros H. apply andb_true_iff in H. destruct H as (Hc & Hs).
  rewrite (IH Hs), orb_false_r.
  destruct (Ascii.eqb ","%char c) eqn:E; [|reflexivity].
  apply Ascii.eqb_eq in E. subst c. discriminate.
Qed.

Lemma spec_fields_append line s delimiter :
  Str.mem delimiter s = false ->
  spec_fields (line ++ s) delimiter = appendLast s (spec_fields line delimiter).
Proof.
  intros Hs. induction line as [|c line IH].
  - cbn [append spec_fields appendLast]. rewrite spec_fields_getline. now rewrite Hs.
  - cbn [append spec_fields]. rewrite IH.
    destruct (spec_fields line delimiter) as [|g gs] eqn:G;
      [now destruct (spec_fields_not_nil delimiter line)|].
    destruct (Ascii.eqb c delimiter); [reflexivity|].
    cbn [appendLast]. now destruct gs.
Qed.

Lemma spec_fields_length_le line delimiter :
  Forall (fun field => String.length field <= String.length line)
         (spec_fields line delimiter).
Proof.
  induction line as [|c line IH]; cbn [spec_fields].
  - constructor; [apply Nat.le_refl|constructor].
  - destruct (Ascii.eqb c delimiter).
    + constructor; [simpl; lia|].
      eapply Forall_impl; [|exact IH]. simpl. intros; lia.
    + destruct (spec_fields line delimiter) as [|g gs].
      * constructor; [simpl; lia|constructor].
      * inversion IH as [|? ? Hg Hgs]; subst. constructor; [simpl; lia|].
        eapply Forall_impl; [|exact Hgs]. simpl. intros; lia.
Qed.

Lemma map_trim_appendLast s fields :
  allIn whitespace s = true ->
  Forall (fun field => (Z.of_nat (String.length (field ++ s)) < Str.npos)%Z) fields ->
  map trim (appendLast s fields) = map trim fields.
Proof.
  intros Hs. induction 1 as [|f fs Hf _ IH]; [reflexivity|].
  cbn [appendLast]. destruct fs as [|g gs].
  - cbn [map]. now rewrite trim_append_whitespace.
  - cbn [map] in *. now rewrite IH.
Qed.

Lemma acceptTrimmed_app_empty trimmed :
  acceptTrimmed (trimmed ++ [""]) = acceptTrimmed trimmed.
Proof.
  unfold acceptTrimmed.
  destruct trimmed as [|a [|b rest]]; [reflexivity| |].
  - cbn. now rewrite andb_false_r.
  - cbn [app List.length Nat.ltb Nat.leb nth skipn].
    destruct (nonEmpty a && nonEmpty b); [|reflexivity].
    rewrite filter_app. cbn [filter nonEmpty Str.empty negb]. now rewrite app_nil_r.
Qed.

Lemma acceptTrimmed_dropLastEmpty fields :
  acceptTrimmed (map trim (dropLastEmpty fields)) = acceptTrimmed (map trim fields).
Proof.
  destruct (dropLastEmpty_cases fields) as [->|E]; [reflexivity|].
  rewrite E at 2. rewrite map_app. cbn [map].
  change (trim "") with "". now rewrite acceptTrimmed_app_empty.
Qed.

Lemma nth_map_trim i tokens : nth i (map trim tokens) "" = trim (nth i tokens "").
Proof. exact (map_nth trim tokens "" i). Qed.

(** The course of a line, read off its comma-separated fields. *)
Lemma acceptedCourse_classify line :
  acceptedCourse (classify line) =
  if Str.empty (trim line) then None
  else acceptTrimmed (map trim (spec_fields line ","%char)).
Proof.
  unfold classify. destruct (Str.empty (trim line)); [reflexivity|]. cbv zeta.
  rewrite <- acceptTrimmed_dropLastEmpty, <- split_spec_fields.
  unfold acceptTrimmed. rewrite length_map.
  destruct (Nat.ltb (List.length (split line ","%char)) 2); [reflexivity|].
  unfold courseOfTokens at 1 2. cbn [courseNumber courseTitle].
  rewrite !nth_map_trim. unfold nonEmpty at 1 2.
  destruct (negb (Str.empty (trim (nth 0 (split line ","%char) ""))) &&
            negb (Str.empty (trim (nth 1 (split line ","%char) ""))));
    [|reflexivity].
  cbn [acceptedCourse]. f_equal. unfold courseOfTokens.
  rewrite prereqLoop_filter by lia. now rewrite <- skipn_map.
Qed.

Lemma acceptedCourse_append_whitespace line s :
  (Z.of_nat (String.length (line ++ s)) < Str.npos)%Z ->
  allIn whitespace s = true ->
  acceptedCourse (classify (line ++ s)) = acceptedCourse (classify line).
Proof.
  intros Hlen Hs. rewrite !acceptedCourse_classify.
  rewrite (trim_append_whitespace line s Hlen Hs).
  rewrite (spec_fields_append line s _ (whitespace_no_comma s Hs)).
  rewrite map_trim_appendLast; [reflexivity|assumption|].
  eapply Forall_impl; [|apply spec_fields_length_le].
  cbn beta. intros f Hf. rewrite length_append in *. lia.
Qed.

Lemma lineCourses_acceptedCourse lines :
  lineCourses lines =
  flat_map (fun line => match acceptedCourse (classify line) with
                        | Some c => [c]
                        | None => []
                        end) lines.
Proof.
  induction lines as [|l lines IH]; [reflexivity|].
  cbn [lineCourses flat_map]. rewrite IH. now destruct (classify l).
Qed.

End TrailingWhitespace.

(** ** Windows line endings *)

Section LineEndings.

Lemma appendButLast_not_nil s fields : fields <> [] -> appendButLast s fields <> [].
Proof. destruct fields as [|f [|g gs]]; simpl; congruence. Qed.

Lemma spec_fields_toCRLF content :
  spec_fields (toCRLF content) "010"%char =
  appendButLast carriageReturn (spec_fields content "010"%char).
Proof.
  induction content as [|c content IH]; [reflexivity|].
  cbn [toCRLF spec_fields].
  destruct (Ascii.eqb c "010"%char) eqn:E.
  - cbn [spec_fields]. change (Ascii.eqb "013"%char "010"%char) with false.
    change (Ascii.eqb "010"%char "010"%char) with true. cbv iota.
    rewrite IH.
    destruct (spec_fields content "010"%char) as [|g gs] eqn:G;
      [now destruct (spec_fields_not_nil "010"%char content)|].
    reflexivity.
  - cbn [spec_fields]. rewrite E, IH.
    destruct (spec_fields content "010"%char) as [|g gs] eqn:G;
      [now destruct (spec_fields_not_nil "010"%char content)|].
    cbn [appendButLast]. now destruct gs.
Qed.

Lemma lineCourses_cons_whitespace line s lines lines' :
  (Z.of_nat (String.length (line ++ s)) < Str.npos)%Z ->
  allIn whitespace s = true ->
  lineCourses lines' = lineCourses lines ->
  lineCourses ((line ++ s) :: lines') = lineCourses (line :: lines).
Proof.
  intros Hlen Hs H. rewrite !lineCourses_acceptedCourse in *. cbn [flat_map].
  now rewrite (acceptedCourse_append_whitespace line s Hlen Hs), H.
Qed.

Lemma lineCourses_appendButLast fields :
  Forall (fun field => (Z.of_nat (String.length (field ++ carriageReturn)) < Str.npos)%Z) fields ->
  lineCourses (dropLastEmpty (appendButLast carriageReturn fields)) =
  lineCourses (dropLastEmpty fields).
Proof.
  induction 1 as [|f fs Hf Hfs IH]; [reflexivity|].
  destruct fs as [|g gs]; [reflexivity|].
  change (appendButLast carriageReturn (f :: g :: gs))
    with ((f ++ carriageReturn) :: appendButLast carriageReturn (g :: gs)).
  destruct (appendButLast carriageReturn (g :: gs)) as [|h hs] eqn:A;
    [now destruct (appendButLast_not_nil carriageReturn (g :: gs))|].
  change (dropLastEmpty ((f ++ carriageReturn) :: h :: hs))
    with ((f ++ carriageReturn) :: dropLastEmpty (h :: hs)).
  change (dropLastEmpty (f :: g :: gs)) with (f :: dropLastEmpty (g :: gs)).
  apply lineCourses_cons_whitespace; [assumption|reflexivity|].
  exact IH.
Qed.

End LineEndings.

(** X22.  Whitespace at the end of a line does not matter to what is
    loaded: a line followed by spaces, tabs or a carriage return is
    accepted exactly when the line itself is, and gives the same course;
    so the loader changes the tree in the same way for both. *)
Theorem trailing_whitespace_loads_the_same_course line s lineNumber lineNumber' w :
  (Z.of_nat (String.length (line ++ s)) < Str.npos)%Z ->
  allIn whitespace s = true ->
  acceptedCourse (classify (line ++ s)) = acceptedCourse (classify line)
  /\ courseTree (snd (loadLine lineNumber (line ++ s) w)) =
     courseTree (snd (loadLine lineNumber' line w)).
Proof.
  intros Hlen Hs.
  pose proof (acceptedCourse_append_whitespace line s Hlen Hs) as H.
  split; [exact H|]. rewrite !loadLine_classify.
  destruct (classify (line ++ s)); destruct (classify line);
    cbn [acceptedCourse] in H; try discriminate; try reflexivity.
  now injection H as ->.
Qed.

Lemma trailing_whitespace_loads_the_same_course_witness :
  acceptedCourse (classify ("CS101,Intro,CS100" ++ String "013"%char "")) =
  acceptedCourse (classify "CS101,Intro,CS100").
Proof.
  refine (proj1 (trailing_whitespace_loads_the_same_course
    "CS101,Intro,CS100" (String "013"%char "") 1%Z 1%Z initialWorld _ _));
    reflexivity.
Defined.

(** X23.  A file with Windows line endings loads as the same file with
    Unix line endings: putting a carriage return before every newline of
    the content leaves the tree that the load builds unchanged. *)
Theorem crlf_file_loads_the_same_store fs fs' fileName fileName' content w w' :
  fs fileName = Some content ->
  fs' fileName' = Some (toCRLF content) ->
  (Z.of_nat (String.length content) + 1 < Str.npos)%Z ->
  courseTree (snd (loadCoursesFromFile fs' fileName' w')) =
  courseTree (snd (loadCoursesFromFile fs fileName w)).
Proof.
  intros E E' Hlen.
  rewrite (loadCoursesFromFile_open _ _ _ _ E), (loadCoursesFromFile_open _ _ _ _ E').
  cbn [snd courseTree]. do 2 f_equal. unfold fileLines.
  rewrite !split_spec_fields, spec_fields_toCRLF.
  apply lineCourses_appendButLast.
  eapply Forall_impl; [|apply spec_fields_length_le].
  cbn beta. intros f Hf. rewrite length_append.
  change (String.length carriageReturn) with 1. lia.
Qed.

Lemma crlf_file_loads_the_same_store_witness :
  courseTree (snd (loadCoursesFromFile
    (oneFile "dos.csv" (toCRLF ("CS200,Data,CS101" ++ nl ++ "CS101,Intro" ++ nl)))
    "dos.csv" initialWorld)) =
  courseTree (snd (loadCoursesFromFile
    (oneFile "unix.csv" ("CS200,Data,CS101" ++ nl ++ "CS101,Intro" ++ nl))
    "unix.csv" initialWorld)).
Proof.
  apply (crlf_file_loads_the_same_store
    (oneFile "unix.csv" ("CS200,Data,CS101" ++ nl ++ "CS101,Intro" ++ nl))
    (oneFile "dos.csv" (toCRLF ("CS200,Data,CS101" ++ nl ++ "CS101,Intro" ++ nl)))
    "unix.csv" "dos.csv" ("CS200,Data,CS101" ++ nl ++ "CS101,Intro" ++ nl));
    reflexivity.
Defined.
